(** * Deskbot: a shallow embedding of the conversation history, the face
    locator, the eye animation and the wake-word test, with the properties
    the specification states about them.

    Conventions.
    - Python [int] is [Z]; Python [float] is idealised as an exact rational
      ([Q]), so every arithmetic law below is a law of exact arithmetic and
      says nothing about binary rounding.  Equality of rationals is [Qeq]
      ([==]).
    - A Python [str] is a [string] whose characters are the code points
      below 256.
    - A method that mutates [self] becomes a function returning the new
      object; what the outside world answers (the chat backend, the camera
      and the detector) is an argument of the call. *)

From Stdlib Require Import List String Ascii Bool Arith ZArith QArith Qabs Qround Lia Lqa.
Import ListNotations.
Open Scope string_scope.
Open Scope list_scope.

(* ================================================================== *)
(** * openai_integration.py *)
(* ================================================================== *)

Module OpenAIIntegration.

Inductive role := System | User | Assistant.

(** A history entry, [{"role": ..., "content": ...}]. *)
Record message := Message { msg_role : role; msg_content : string }.

Definition role_eqb (a b : role) : bool :=
  match a, b with
  | System, System | User, User | Assistant, Assistant => true
  | _, _ => false
  end.

Definition system_message : message :=
  Message System
"You are Deskbot, a friendly desktop companion inspired by the LOOI robot.
You have a cheerful and helpful personality. You enjoy chatting with users and helping them with tasks.
Keep your responses concise and conversational - aim for 1-3 sentences unless more detail is specifically requested.
You can see the user through your camera and track their face to make eye contact.
Be warm, engaging, and occasionally playful in your responses.".

(** The client object built from the credential. *)
Record Client := OpenAI { api_key : string }.

(** The fields of an [OpenAIIntegration] instance. *)
Record t := Build {
  client : option Client;
  conversation_history : list message;
  model : string;
  max_tokens : Z;
  temperature : Q
}.

(** The keyword arguments of [client.chat.completions.create]. *)
Record request := Request {
  req_model : string;
  req_messages : list message;
  req_max_tokens : Z;
  req_temperature : Q
}.

(** What the backend does with a request, together with the extraction
    [response.choices[0].message.content]: [Some text] when both go
    through, [None] when either raises. *)
Definition completions := request -> option string.

(** [__init__]; the argument is [os.getenv('OPENAI_API_KEY')].  An unset
    and an empty variable are both falsy. *)
Definition init (env_api_key : option string) : t :=
  let client :=
    match env_api_key with
    | None => None
    | Some EmptyString => None
    | Some k => Some (OpenAI k)
    end in
  Build client [system_message] "gpt-3.5-turbo" 150 (7 # 10).

Definition not_configured_reply : string :=
  "I'm sorry, but I'm not configured properly. Please set up your OpenAI API key.".

Definition error_reply : string :=
  "I'm sorry, I encountered an error processing your request.".

Definition set_history (self : t) (h : list message) : t :=
  Build (client self) h (model self) (max_tokens self) (temperature self).

(** Python's [l[-n:]]: the last [n] entries, the whole list when it is
    shorter. *)
Definition py_slice_last {A} (n : nat) (l : list A) : list A :=
  skipn (List.length l - n) l.

(** The request [get_response] sends for [user_input]. *)
Definition request_for (self : t) (user_input : string) : request :=
  Request (model self)
          (conversation_history self ++ [Message User user_input])
          (max_tokens self) (temperature self).

(** [get_response].  Returns the reply, the object afterwards and the
    requests sent to the backend during the call.  The lookup
    [conversation_history[0]] sits inside the [try], so an empty list
    there would end in the handler. *)
Definition get_response (create : completions) (self : t) (user_input : string)
  : string * t * list request :=
  match client self with
  | None => (not_configured_reply, self, [])
  | Some _ =>
      let self1 :=
        set_history self (conversation_history self ++ [Message User user_input]) in
      let req := Request (model self1) (conversation_history self1)
                         (max_tokens self1) (temperature self1) in
      match create req with
      | None => (error_reply, self1, [req])
      | Some assistant_message =>
          let self2 :=
            set_history self1
              (conversation_history self1 ++ [Message Assistant assistant_message]) in
          if (19 <? List.length (conversation_history self2))%nat then
            match conversation_history self2 with
            | [] => (error_reply, self2, [req])
            | m0 :: _ =>
                (assistant_message,
                 set_history self2
                   ([m0] ++ py_slice_last 18 (conversation_history self2)),
                 [req])
            end
          else (assistant_message, self2, [req])
      end
  end.

(** [reset_conversation]; [None] stands for the [IndexError] of
    [conversation_history[0]] on an empty list. *)
Definition reset_conversation (self : t) : option t :=
  match conversation_history self with
  | [] => None
  | m0 :: _ => Some (set_history self [m0])
  end.

(** The calls a caller can make on an instance. *)
Inductive call :=
| GetResponse (create : completions) (user_input : string)
| ResetConversation.

Definition step (self : t) (c : call) : option t :=
  match c with
  | GetResponse create u => Some (snd (fst (get_response create self u)))
  | ResetConversation => reset_conversation self
  end.

(** The instances that [__init__] and any number of calls produce. *)
Inductive reachable : t -> Prop :=
| reach_init : forall k, reachable (init k)
| reach_step : forall self c self',
    reachable self -> step self c = Some self' -> reachable self'.

(** Did the backend answer this call? *)
Definition succeeds (create : completions) (self : t) (u : string) : bool :=
  match client self, create (request_for self u) with
  | Some _, Some _ => true
  | _, _ => false
  end.

(** A session: each call comes with the backend behaviour it meets. *)
Fixpoint respond_all (self : t) (calls : list (completions * string)) : t :=
  match calls with
  | [] => self
  | (create, u) :: rest =>
      respond_all (snd (fst (get_response create self u))) rest
  end.

Fixpoint all_succeed (self : t) (calls : list (completions * string)) : bool :=
  match calls with
  | [] => true
  | (create, u) :: rest =>
      succeeds create self u
      && all_succeed (snd (fst (get_response create self u))) rest
  end.

(** Everything a session of answered calls appended to the history, in
    order: the user entry and the assistant entry of each call. *)
Fixpoint appended (self : t) (calls : list (completions * string)) : list message :=
  match calls with
  | [] => []
  | (create, u) :: rest =>
      Message User u
      :: match create (request_for self u) with
         | Some a => [Message Assistant a]
         | None => []
         end
      ++ appended (snd (fst (get_response create self u))) rest
  end.

(** The last entry is a user message: a user turn with no reply after it. *)
Definition dangling_user (h : list message) : bool :=
  match rev h with
  | m :: _ => role_eqb (msg_role m) User
  | [] => false
  end.

(** Did the backend raise on every call of the session? *)
Fixpoint all_fail (self : t) (calls : list (completions * string)) : bool :=
  match calls with
  | [] => true
  | (create, u) :: rest =>
      match create (request_for self u) with
      | None => all_fail (snd (fst (get_response create self u))) rest
      | Some _ => false
      end
  end.

End OpenAIIntegration.

(** [q ^ n] for a natural exponent, by repeated multiplication. *)
Fixpoint Qpow (q : Q) (n : nat) : Q :=
  match n with
  | O => 1
  | S n' => q * Qpow q n'
  end.

(* ================================================================== *)
(** * face_tracking.py *)
(* ================================================================== *)

Module FaceTracking.

(** A detected rectangle [(x, y, w, h)]. *)
Definition rect : Type := Z * Z * Z * Z.

(** A gaze value [(x, y)]. *)
Definition position : Type := Q * Q.

(** What one poll meets inside the [try]: [cap.read()] reports no frame,
    a library call raises, or a frame of shape [(frame_height,
    frame_width)] comes back on which the detector reports [faces]. *)
Inductive capture :=
| ReadFails
| Raises
| Frame (frame_height frame_width : Z) (faces : list rect).

(** The fields of a [FaceTracking] instance; [cap] tells whether the
    camera handle is there ([self.cap] is not [None]). *)
Record t := Build {
  cap : bool;
  last_face_position : option position
}.

Definition init (camera_opened : bool) : t := Build camera_opened None.

Definition set_last (self : t) (p : option position) : t :=
  Build (cap self) p.

(** [max(faces, key=...)] on a non-empty sequence: the first entry whose
    key is the largest. *)
Fixpoint py_max_by (key : rect -> Z) (best : rect) (rest : list rect) : rect :=
  match rest with
  | [] => best
  | f :: rest' =>
      if (key best <? key f)%Z then py_max_by key f rest'
      else py_max_by key best rest'
  end.

Definition area (f : rect) : Z := let '(_, _, w, h) := f in (w * h)%Z.

(** [a / b] on integers; [None] is the [ZeroDivisionError]. *)
Definition py_truediv (a b : Z) : option Q :=
  if (b =? 0)%Z then None else Some (inject_Z a / inject_Z b).

(** [min(1, v)] and [max(-1, v)]: the second argument wins only when it
    is strictly smaller (larger). *)
Definition py_min1 (v : Q) : Q := if Qlt_le_dec v 1 then v else 1.
Definition py_max_neg1 (v : Q) : Q := if Qlt_le_dec (-1) v then v else -1.

Definition clamp (v : Q) : Q := py_max_neg1 (py_min1 v).

(** [abs(x) < 0.01 and abs(y) < 0.01]. *)
Definition near_centre (x y : Q) : bool :=
  (if Qlt_le_dec (Qabs x) 0.01 then true else false)
  && (if Qlt_le_dec (Qabs y) 0.01 then true else false).

(** [get_face_position]: the value returned and the object afterwards.
    A tuple is truthy whatever its components, so the test
    [if self.last_face_position] only asks whether a value is stored. *)
Definition get_face_position (self : t) (c : capture) : option position * t :=
  if negb (cap self) then (None, self)
  else
    match c with
    | ReadFails => (last_face_position self, self)
    | Raises => (last_face_position self, self)
    | Frame frame_height frame_width faces =>
        match faces with
        | f0 :: rest =>
            let '(x, y, w, h) := py_max_by area f0 rest in
            let face_center_x := (x + w / 2)%Z in
            let face_center_y := (y + h / 2)%Z in
            let frame_center_x := (frame_width / 2)%Z in
            let frame_center_y := (frame_height / 2)%Z in
            match py_truediv (face_center_x - frame_center_x) (frame_width / 2),
                  py_truediv (face_center_y - frame_center_y) (frame_height / 2)
            with
            | Some normalized_x, Some normalized_y =>
                let normalized_x := clamp normalized_x in
                let normalized_y := clamp normalized_y in
                (Some (normalized_x, normalized_y),
                 set_last self (Some (normalized_x, normalized_y)))
            | _, _ => (last_face_position self, self)
            end
        | [] =>
            match last_face_position self with
            | Some (x, y) =>
                let x := x * 0.95 in
                let y := y * 0.95 in
                let self' :=
                  if near_centre x y then set_last self (Some (0, 0))
                  else set_last self (Some (x, y)) in
                (last_face_position self', self')
            | None => (Some (0, 0), self)
            end
        end
    end.

(** The object after a series of polls, and what the polls returned. *)
Fixpoint poll_all (self : t) (cs : list capture) : t :=
  match cs with
  | [] => self
  | c :: rest => poll_all (snd (get_face_position self c)) rest
  end.

Fixpoint returned (self : t) (cs : list capture) : list (option position) :=
  match cs with
  | [] => []
  | c :: rest =>
      fst (get_face_position self c)
      :: returned (snd (get_face_position self c)) rest
  end.

(** A poll that captured a frame on which no face was found. *)
Definition no_face (c : capture) : bool :=
  match c with
  | Frame _ _ [] => true
  | _ => false
  end.

(** Both components lie in [[-1, 1]]. *)
Definition in_range (p : position) : Prop :=
  (-1 <= fst p /\ fst p <= 1) /\ (-1 <= snd p /\ snd p <= 1).

Definition position_eq (p q : position) : Prop :=
  fst p == fst q /\ snd p == snd q.

(** What may be stored: nothing, or a value in range. *)
Definition stored_in_range (o : option position) : Prop :=
  match o with
  | Some p => in_range p
  | None => True
  end.

End FaceTracking.

(* ================================================================== *)
(** * gui.py *)
(* ================================================================== *)

Module DeskbotGUI.

(** The animation fields of a [DeskbotGUI] instance. *)
Record t := Build {
  left_eye_x : Q;
  left_eye_y : Q;
  right_eye_x : Q;
  right_eye_y : Q;
  target_eye_x : Q;
  target_eye_y : Q;
  expression : string;
  blink_timer : Z;
  is_blinking : bool
}.

(** The fields as [__init__] sets them, before its first [animate]. *)
Definition initial : t := Build 0 0 0 0 0 0 "normal" 0 false.

(** The state part of [animate]: four smoothing updates, then the blink
    logic. *)
Definition animate (self : t) : t :=
  let smoothing := 0.15 in
  let left_eye_x := left_eye_x self + (target_eye_x self - left_eye_x self) * smoothing in
  let left_eye_y := left_eye_y self + (target_eye_y self - left_eye_y self) * smoothing in
  let right_eye_x := right_eye_x self + (target_eye_x self - right_eye_x self) * smoothing in
  let right_eye_y := right_eye_y self + (target_eye_y self - right_eye_y self) * smoothing in
  let blink_timer := (blink_timer self + 1)%Z in
  let '(blink_timer, is_blinking) :=
    if (150 <? blink_timer)%Z then
      if (155 <? blink_timer)%Z then (0%Z, false) else (blink_timer, true)
    else (blink_timer, is_blinking self) in
  Build left_eye_x left_eye_y right_eye_x right_eye_y
        (target_eye_x self) (target_eye_y self) (expression self)
        blink_timer is_blinking.

(** [update_eye_position]; a [None] position is ignored. *)
Definition update_eye_position (self : t) (position : option (Q * Q)) : t :=
  match position with
  | Some (x, y) =>
      let max_movement := 15 in
      Build (left_eye_x self) (left_eye_y self) (right_eye_x self) (right_eye_y self)
            (x * max_movement) (y * max_movement)
            (expression self) (blink_timer self) (is_blinking self)
  | None => self
  end.

(** What [draw_face] puts on the canvas for the eyes: two white discs
    with their pupils, or two horizontal lines while blinking. *)
Inductive eyes :=
| OpenEyes (left_pupil_x left_pupil_y right_pupil_x right_pupil_y : Q)
| ClosedEyes.

Definition draw_eyes (self : t) : eyes :=
  let center_x := (400 / 2)%Z in
  let center_y := (250 / 2)%Z in
  let left_eye_center_x := (center_x - 60)%Z in
  let right_eye_center_x := (center_x + 60)%Z in
  let eye_center_y := center_y in
  if negb (is_blinking self) then
    OpenEyes (inject_Z left_eye_center_x + left_eye_x self)
             (inject_Z eye_center_y + left_eye_y self)
             (inject_Z right_eye_center_x + right_eye_x self)
             (inject_Z eye_center_y + right_eye_y self)
  else ClosedEyes.

(** [n] animation ticks in a row. *)
Fixpoint ticks (n : nat) (self : t) : t :=
  match n with
  | O => self
  | S n' => animate (ticks n' self)
  end.

(** The offsets one component runs through from 0 under a constant
    target: each tick adds 15% of what is left. *)
Fixpoint smoothed (target : Q) (n : nat) : Q :=
  match n with
  | O => 0
  | S n' => smoothed target n' + (target - smoothed target n') * 0.15
  end.

(** A sequence of offsets that follows the smoothing law towards
    [target]: the closed form, a gap that never grows, no overshoot on
    either side, and a gap that falls below every positive bound. *)
Definition converges_smoothly (offset : nat -> Q) (target : Q) : Prop :=
  (forall n, offset n == target * (1 - Qpow 0.85 n))
  /\ (forall n, Qabs (target - offset (S n)) <= Qabs (target - offset n))
  /\ (forall n, 0 <= target -> offset n <= offset (S n) /\ offset (S n) <= target)
  /\ (forall n, target <= 0 -> target <= offset (S n) /\ offset (S n) <= offset n)
  /\ (forall eps, 0 < eps ->
      exists N, forall n, (N <= n)%nat -> Qabs (target - offset n) < eps).

(** [set_expression]: any string is taken as it comes. *)
Definition set_expression (self : t) (expression : string) : t :=
  Build (left_eye_x self) (left_eye_y self) (right_eye_x self) (right_eye_y self)
        (target_eye_x self) (target_eye_y self) expression
        (blink_timer self) (is_blinking self).

(** What [draw_face] creates on the canvas, with the options it passes
    ([width] is absent where the call leaves it out). *)
Inductive canvas_item :=
| Oval (x0 y0 x1 y1 : Q) (fill outline : string) (width : option Z)
| Line (x0 y0 x1 y1 : Q) (fill : string) (width : Z)
| Arc (x0 y0 x1 y1 : Q) (start extent : Z) (outline : string) (width : Z)
      (style : string).

(** [draw_face]: the canvas is cleared first, so this list is all that is
    on it afterwards, in drawing order. *)
Definition draw_face (self : t) : list canvas_item :=
  let canvas_width := 400%Z in
  let canvas_height := 250%Z in
  let center_x := inject_Z (canvas_width / 2) in
  let center_y := inject_Z (canvas_height / 2) in
  let left_eye_center_x := center_x - 60 in
  let right_eye_center_x := center_x + 60 in
  let eye_center_y := center_y in
  let eye_outer_radius := 40 in
  let pupil_radius := 20 in
  (if negb (is_blinking self) then
     let left_pupil_x := left_eye_center_x + left_eye_x self in
     let left_pupil_y := eye_center_y + left_eye_y self in
     let right_pupil_x := right_eye_center_x + right_eye_x self in
     let right_pupil_y := eye_center_y + right_eye_y self in
     [ Oval (left_eye_center_x - eye_outer_radius) (eye_center_y - eye_outer_radius)
            (left_eye_center_x + eye_outer_radius) (eye_center_y + eye_outer_radius)
            "white" "" None;
       Oval (right_eye_center_x - eye_outer_radius) (eye_center_y - eye_outer_radius)
            (right_eye_center_x + eye_outer_radius) (eye_center_y + eye_outer_radius)
            "white" "" None;
       Oval (left_pupil_x - pupil_radius) (left_pupil_y - pupil_radius)
            (left_pupil_x + pupil_radius) (left_pupil_y + pupil_radius)
            "black" "" None;
       Oval (right_pupil_x - pupil_radius) (right_pupil_y - pupil_radius)
            (right_pupil_x + pupil_radius) (right_pupil_y + pupil_radius)
            "black" "" None ]
   else
     [ Line (left_eye_center_x - eye_outer_radius) eye_center_y
            (left_eye_center_x + eye_outer_radius) eye_center_y "white" 4;
       Line (right_eye_center_x - eye_outer_radius) eye_center_y
            (right_eye_center_x + eye_outer_radius) eye_center_y "white" 4 ])
  ++
  (let mouth_y := center_y + 60 in
   if String.eqb (expression self) "happy" then
     [ Arc (center_x - 40) (mouth_y - 20) (center_x + 40) (mouth_y + 20)
           180 180 "white" 3 "arc" ]
   else if String.eqb (expression self) "talking" then
     [ Oval (center_x - 20) (mouth_y - 15) (center_x + 20) (mouth_y + 15)
            "black" "white" (Some 2%Z) ]
   else
     [ Arc (center_x - 30) (mouth_y - 10) (center_x + 30) (mouth_y + 10)
           180 180 "white" 2 "arc" ]).

(** The corners an item is created with. *)
Definition corners (i : canvas_item) : Q * Q * Q * Q :=
  match i with
  | Oval x0 y0 x1 y1 _ _ _ => (x0, y0, x1, y1)
  | Line x0 y0 x1 y1 _ _ => (x0, y0, x1, y1)
  | Arc x0 y0 x1 y1 _ _ _ _ _ => (x0, y0, x1, y1)
  end.

(** The box with corners [inner] lies in the box with corners [outer]. *)
Definition box_inside (inner outer : Q * Q * Q * Q) : Prop :=
  let '(a0, b0, a1, b1) := inner in
  let '(c0, d0, c1, d1) := outer in
  (c0 <= a0 /\ a0 <= a1 /\ a1 <= c1) /\ (d0 <= b0 /\ b0 <= b1 /\ b1 <= d1).

(** The 400 x 250 canvas [create_ui] makes. *)
Definition canvas_box : Q * Q * Q * Q := (0, 0, 400, 250).

(** The calls that change the animation fields. *)
Inductive method_call :=
| Animate
| UpdateEyePosition (position : option (Q * Q))
| SetExpression (expression : string).

Definition call_method (self : t) (c : method_call) : t :=
  match c with
  | Animate => animate self
  | UpdateEyePosition position => update_eye_position self position
  | SetExpression e => set_expression self e
  end.

Fixpoint call_methods (self : t) (cs : list method_call) : t :=
  match cs with
  | [] => self
  | c :: rest => call_methods (call_method self c) rest
  end.

(** Both components of a position handed to [update_eye_position] lie in
    [[-1, 1]]. *)
Definition position_in_range (c : method_call) : Prop :=
  match c with
  | UpdateEyePosition (Some (x, y)) => (-1 <= x /\ x <= 1) /\ (-1 <= y /\ y <= 1)
  | _ => True
  end.

(** All four eye offsets and both targets are at most [bound] in
    magnitude. *)
Definition within (bound v : Q) : Prop := - bound <= v /\ v <= bound.

Definition eyes_within (bound : Q) (self : t) : Prop :=
  (within bound (left_eye_x self) /\ within bound (left_eye_y self))
  /\ (within bound (right_eye_x self) /\ within bound (right_eye_y self))
  /\ (within bound (target_eye_x self) /\ within bound (target_eye_y self)).

(** The widgets beside the face: the status label, the listen button and
    whether a toggle callback has been set. *)
Record window := Window {
  face : t;
  status_label : string;
  listen_button : string;
  toggle_listening_callback : bool
}.

(** [__init__]: the fields, no callback, [create_ui] with its label and
    button texts, then the first [animate]. *)
Definition new_window : window :=
  Window (animate initial) "Ready" "Start Listening" false.

Definition set_face (w : window) (f : t) : window :=
  Window f (status_label w) (listen_button w) (toggle_listening_callback w).

(** [update_status]. *)
Definition update_status (w : window) (status : string) : window :=
  Window (face w) status (listen_button w) (toggle_listening_callback w).

Definition set_listen_button (w : window) (text : string) : window :=
  Window (face w) (status_label w) text (toggle_listening_callback w).

(** [set_toggle_listening_callback]; the one callback the repository ever
    sets is the application's [toggle_listening]. *)
Definition set_toggle_listening_callback (w : window) : window :=
  Window (face w) (status_label w) (listen_button w) true.

End DeskbotGUI.

(* ================================================================== *)
(** * voice_recognition.py *)
(* ================================================================== *)

Module VoiceRecognition.

(** [str.lower] on one code point below 256: the letters A-Z and the
    accented capitals U+00C0..U+00DE (U+00D7, the multiplication sign,
    is not a letter) move up by 32. *)
Definition lower_char (c : ascii) : ascii :=
  let n := nat_of_ascii c in
  if ((65 <=? n) && (n <=? 90))%nat then ascii_of_nat (n + 32)
  else if ((192 <=? n) && (n <=? 222) && negb (n =? 215))%nat
       then ascii_of_nat (n + 32)
  else c.

Fixpoint lower (s : string) : string :=
  match s with
  | EmptyString => EmptyString
  | String c s' => String (lower_char c) (lower s')
  end.

(** [str.isspace] on one code point below 256. *)
Definition isspace (c : ascii) : bool :=
  let n := nat_of_ascii c in
  (((9 <=? n) && (n <=? 13)) || ((28 <=? n) && (n <=? 32))
   || (n =? 133) || (n =? 160))%nat.

(** [str.split()] with no argument: the maximal runs of non-space
    characters.  [word] is the run being read. *)
Fixpoint split_from (word : string) (s : string) : list string :=
  match s with
  | EmptyString =>
      match word with
      | EmptyString => []
      | _ => [word]
      end
  | String c s' =>
      if isspace c then
        match word with
        | EmptyString => split_from EmptyString s'
        | _ => word :: split_from EmptyString s'
        end
      else split_from (append word (String c EmptyString)) s'
  end.

Definition split (s : string) : list string := split_from EmptyString s.

(** [sep.join(words)]. *)
Fixpoint join (sep : string) (words : list string) : string :=
  match words with
  | [] => EmptyString
  | [w] => w
  | w :: rest => append w (append sep (join sep rest))
  end.

(** [needle in hay]: some suffix of [hay] starts with [needle]. *)
Fixpoint py_in (needle hay : string) : bool :=
  prefix needle hay
  || match hay with
     | EmptyString => false
     | String _ hay' => py_in needle hay'
     end.

(** The one field of a [VoiceRecognition] instance the test reads. *)
Record t := Build { wake_word : string }.

(** [__init__]; the argument is the environment's [WAKE_WORD], if set. *)
Definition init (env_wake_word : option string) : t :=
  Build (lower match env_wake_word with
               | Some w => w
               | None => "hey deskbot"
               end).

(** [check_wake_word]; [None] and the empty string are the falsy
    texts. *)
Definition check_wake_word (self : t) (text : option string) : bool :=
  match text with
  | None => false
  | Some EmptyString => false
  | Some text =>
      let text_lower := lower text in
      let wake_words := split (wake_word self) in
      let text_words := split text_lower in
      let wake_phrase := join " " wake_words in
      py_in wake_phrase text_lower
  end.

(** [w] occurs in [s] as a contiguous substring. *)
Definition contains (s w : string) : Prop :=
  exists pre post, s = append pre (append w post).

(** Every character is white space (the empty string included). *)
Fixpoint all_space (s : string) : bool :=
  match s with
  | EmptyString => true
  | String c s' => isspace c && all_space s'
  end.

(** What one call of [listen] meets: no speech before the timeout, some
    other exception while listening, audio that is not understood, a
    failed request to the recogniser, or a transcript. *)
Inductive heard :=
| WaitTimeout
| ListenError
| UnknownValue
| RequestError
| Recognized (text : string).

(** [listen]: the transcript, or [None] for every failure. *)
Definition listen (h : heard) : option string :=
  match h with
  | Recognized text => Some text
  | WaitTimeout | ListenError | UnknownValue | RequestError => None
  end.

End VoiceRecognition.

(* ================================================================== *)
(** * text_to_speech.py *)
(* ================================================================== *)

Module TextToSpeech.

(** What [voice.name.lower() if hasattr(voice, 'name') else ''] meets:
    no attribute [name], a name on which [lower()] raises, or a string. *)
Inductive name_attribute :=
| NoName
| BadName
| Name (s : string).

Record voice := Voice { voice_name : name_attribute; voice_id : string }.

(** The engine properties the class sets. *)
Record engine_properties := Engine {
  rate : Q;
  volume : Q;
  voice_property : option string
}.

(** [self.engine] is [None] when initialisation failed. *)
Record t := Build { engine : option engine_properties }.

(** The loop over the voices.  A voice qualifies when its lower-cased
    name contains "female" or "zira"; the first qualifying voice whose
    [setProperty] does not raise is selected and ends the loop; an
    exception moves on to the next voice. *)
Fixpoint select_voice (set_voice_raises : string -> bool) (voices : list voice)
  : option string :=
  match voices with
  | [] => None
  | voice :: rest =>
      match voice_name voice with
      | BadName => select_voice set_voice_raises rest
      | attribute =>
          let voice_name :=
            match attribute with
            | Name s => VoiceRecognition.lower s
            | _ => EmptyString
            end in
          if VoiceRecognition.py_in "female" voice_name
             || VoiceRecognition.py_in "zira" voice_name
          then
            if set_voice_raises (voice_id voice)
            then select_voice set_voice_raises rest
            else Some (voice_id voice)
          else select_voice set_voice_raises rest
      end
  end.

(** [__init__].  [voices] is what [getProperty('voices')] returns, [None]
    when [pyttsx3.init()] or one of the property calls around it raises. *)
Definition init (voices : option (list voice)) (set_voice_raises : string -> bool) : t :=
  match voices with
  | None => Build None
  | Some voices =>
      Build (Some (Engine 150 0.9 (select_voice set_voice_raises voices)))
  end.

(** [speak]: the texts handed to [engine.say]. *)
Definition speak (self : t) (text : string) : list string :=
  match engine self with
  | None => []
  | Some _ => [text]
  end.

(** [set_rate] and [set_volume]: nothing happens without an engine, and
    the value is not checked. *)
Definition set_rate (self : t) (r : Q) : t :=
  match engine self with
  | None => self
  | Some e => Build (Some (Engine r (volume e) (voice_property e)))
  end.

Definition set_volume (self : t) (v : Q) : t :=
  match engine self with
  | None => self
  | Some e => Build (Some (Engine (rate e) v (voice_property e)))
  end.

(** The test the loop applies to a voice. *)
Definition qualifies (set_voice_raises : string -> bool) (v : voice) : bool :=
  match voice_name v with
  | Name s =>
      (VoiceRecognition.py_in "female" (VoiceRecognition.lower s)
       || VoiceRecognition.py_in "zira" (VoiceRecognition.lower s))
      && negb (set_voice_raises (voice_id v))
  | _ => false
  end.

End TextToSpeech.

(* ================================================================== *)
(** * main.py *)
(* ================================================================== *)

Module Deskbot.

(** What the process finds around it at start-up: the four environment
    variables, whether the webcam opens, and the speech driver. *)
Record environment := Environment {
  OPENAI_API_KEY : option string;
  WAKE_WORD : option string;
  VOICE_ENABLED : option string;
  FACE_TRACKING_ENABLED : option string;
  camera_opened : bool;
  tts_voices : option (list TextToSpeech.voice);
  set_voice_raises : string -> bool
}.

(** [os.getenv(NAME, 'true').lower() == 'true']. *)
Definition feature_enabled (value : option string) : bool :=
  String.eqb (VoiceRecognition.lower match value with
                                     | Some v => v
                                     | None => "true"
                                     end)
             "true".

(** The fields of a [Deskbot] instance. *)
Record t := Build {
  gui : DeskbotGUI.window;
  voice_recognition : VoiceRecognition.t;
  openai_integration : OpenAIIntegration.t;
  tts : TextToSpeech.t;
  face_tracking : FaceTracking.t;
  running : bool;
  listening : bool;
  voice_enabled : bool;
  face_tracking_enabled : bool
}.

(** [__init__]. *)
Definition init (env : environment) : t :=
  Build DeskbotGUI.new_window
        (VoiceRecognition.init (WAKE_WORD env))
        (OpenAIIntegration.init (OPENAI_API_KEY env))
        (TextToSpeech.init (tts_voices env) (set_voice_raises env))
        (FaceTracking.init (camera_opened env))
        true false
        (feature_enabled (VOICE_ENABLED env))
        (feature_enabled (FACE_TRACKING_ENABLED env)).

Definition set_gui (app : t) (w : DeskbotGUI.window) : t :=
  Build w (voice_recognition app) (openai_integration app) (tts app)
        (face_tracking app) (running app) (listening app)
        (voice_enabled app) (face_tracking_enabled app).

Definition set_openai_integration (app : t) (o : OpenAIIntegration.t) : t :=
  Build (gui app) (voice_recognition app) o (tts app)
        (face_tracking app) (running app) (listening app)
        (voice_enabled app) (face_tracking_enabled app).

Definition set_face_tracking (app : t) (f : FaceTracking.t) : t :=
  Build (gui app) (voice_recognition app) (openai_integration app) (tts app)
        f (running app) (listening app)
        (voice_enabled app) (face_tracking_enabled app).

Definition set_listening (app : t) (b : bool) : t :=
  Build (gui app) (voice_recognition app) (openai_integration app) (tts app)
        (face_tracking app) (running app) b
        (voice_enabled app) (face_tracking_enabled app).

(** [gui.set_expression] on the application's window. *)
Definition gui_set_expression (app : t) (e : string) : t :=
  set_gui app (DeskbotGUI.set_face (gui app)
                 (DeskbotGUI.set_expression (DeskbotGUI.face (gui app)) e)).

(** [toggle_listening]. *)
Definition toggle_listening (app : t) : t :=
  let app := set_listening app (negb (listening app)) in
  if listening app then
    gui_set_expression
      (set_gui app (DeskbotGUI.update_status (gui app) "Listening...")) "happy"
  else
    gui_set_expression
      (set_gui app (DeskbotGUI.update_status (gui app) "Not listening")) "normal".

(** [DeskbotGUI.on_toggle_listening] with the application behind the
    callback: without a callback a click does nothing; with it the
    application toggles and the button text is switched on the test
    ["Start" in current_text]. *)
Definition on_toggle_listening (app : t) : t :=
  if DeskbotGUI.toggle_listening_callback (gui app) then
    let app := toggle_listening app in
    let current_text := DeskbotGUI.listen_button (gui app) in
    if VoiceRecognition.py_in "Start" current_text then
      set_gui app (DeskbotGUI.set_listen_button (gui app) "Stop Listening")
    else
      set_gui app (DeskbotGUI.set_listen_button (gui app) "Start Listening")
  else app.

(** The first statement of [run]: the callback is wired before the
    threads and the GUI loop start. *)
Definition set_up_callbacks (app : t) : t :=
  set_gui app (DeskbotGUI.set_toggle_listening_callback (gui app)).

(** One pass of [voice_loop] up to the call of [tts.speak]: the object
    afterwards, the requests sent and the response about to be spoken, if
    any.  [listen] and [get_response] catch what goes wrong inside them,
    so the pass has no failing path of its own. *)
Definition voice_loop_listen (app : t) (h : VoiceRecognition.heard)
           (create : OpenAIIntegration.completions)
  : t * list OpenAIIntegration.request * option string :=
  if voice_enabled app && listening app then
    match VoiceRecognition.listen h with
    | None => (app, [], None)
    | Some EmptyString => (app, [], None)
    | Some text =>
        let app :=
          set_gui app (DeskbotGUI.update_status (gui app) (append "Heard: " text)) in
        let '(response, openai, sent) :=
          OpenAIIntegration.get_response create (openai_integration app) text in
        let app := set_openai_integration app openai in
        let app := gui_set_expression app "talking" in
        (app, sent, Some response)
    end
  else (app, [], None).

(** The rest of the pass: [tts.speak(response)], which blocks while the
    engine talks, then the expression goes back to "normal". *)
Definition voice_loop_speak (app : t) (response : string) : t * list string :=
  (gui_set_expression app "normal", TextToSpeech.speak (tts app) response).

(** One pass of [face_tracking_loop]; a returned tuple is truthy whatever
    its components. *)
Definition face_tracking_loop_pass (app : t) (c : FaceTracking.capture) : t :=
  if face_tracking_enabled app then
    let '(face_position, tracker) :=
      FaceTracking.get_face_position (face_tracking app) c in
    let app := set_face_tracking app tracker in
    match face_position with
    | Some _ =>
        set_gui app (DeskbotGUI.set_face (gui app)
                       (DeskbotGUI.update_eye_position
                          (DeskbotGUI.face (gui app)) face_position))
    | None => app
    end
  else app.

(** What can happen next while the application runs: a click on the
    listen button, an animation tick, a pass of the face thread, or the
    next step of the voice thread (the first half of a pass or, when a
    response is waiting to be spoken, the second half). *)
Inductive event :=
| Click
| Tick
| FaceThread (c : FaceTracking.capture)
| VoiceThread (h : VoiceRecognition.heard) (create : OpenAIIntegration.completions).

(** The running application: the object, the response the voice thread
    is about to speak, and what has gone out so far (requests to the
    backend, texts to the speech engine). *)
Record session := Session {
  app : t;
  speaking : option string;
  requests : list OpenAIIntegration.request;
  spoken : list string
}.

Definition start (env : environment) : session :=
  Session (set_up_callbacks (init env)) None [] [].

Definition step (s : session) (e : event) : session :=
  match e with
  | Click => Session (on_toggle_listening (app s)) (speaking s) (requests s) (spoken s)
  | Tick =>
      Session (set_gui (app s)
                 (DeskbotGUI.set_face (gui (app s))
                    (DeskbotGUI.animate (DeskbotGUI.face (gui (app s))))))
              (speaking s) (requests s) (spoken s)
  | FaceThread c =>
      Session (face_tracking_loop_pass (app s) c) (speaking s) (requests s) (spoken s)
  | VoiceThread h create =>
      match speaking s with
      | Some response =>
          let '(app', said) := voice_loop_speak (app s) response in
          Session app' None (requests s) (spoken s ++ said)
      | None =>
          let '(app', sent, response) := voice_loop_listen (app s) h create in
          Session app' response (requests s ++ sent) (spoken s)
      end
  end.

Fixpoint run (s : session) (es : list event) : session :=
  match es with
  | [] => s
  | e :: rest => run (step s e) rest
  end.

Definition is_click (e : event) : bool :=
  match e with
  | Click => true
  | _ => false
  end.

End Deskbot.

(* ================================================================== *)
(** * Properties of the conversation history *)
(* ================================================================== *)

Section ConversationFacts.

Import OpenAIIntegration.

Lemma py_slice_last_length {A} (n : nat) (l : list A) :
  List.length (py_slice_last n l) = Nat.min n (List.length l).
Proof. unfold py_slice_last. rewrite List.length_skipn. lia. Qed.

Lemma py_slice_last_short {A} (n : nat) (l : list A) :
  (List.length l <= n)%nat -> py_slice_last n l = l.
Proof.
  intros H. unfold py_slice_last.
  replace (List.length l - n)%nat with 0%nat by lia. reflexivity.
Qed.

(** Taking the last [n] entries before appending changes nothing for the
    last [n] entries afterwards. *)
Lemma py_slice_last_app {A} (n : nat) (acc z : list A) :
  py_slice_last n (py_slice_last n acc ++ z) = py_slice_last n (acc ++ z).
Proof.
  destruct (Nat.le_gt_cases (List.length acc) n) as [Hle | Hgt].
  - now rewrite (py_slice_last_short n acc Hle).
  - unfold py_slice_last at 1 3.
    rewrite !List.length_app, py_slice_last_length.
    rewrite !List.skipn_app.
    unfold py_slice_last. rewrite List.skipn_skipn, List.length_skipn.
    f_equal; f_equal; lia.
Qed.

(** Once at least [n] entries follow it, the head is outside the last
    [n]. *)
Lemma py_slice_last_cons {A} (n : nat) (a : A) (l : list A) :
  (n <= List.length l)%nat -> py_slice_last n (a :: l) = py_slice_last n l.
Proof.
  intros H. unfold py_slice_last. simpl List.length.
  replace (S (List.length l) - n)%nat with (S (List.length l - n)) by lia.
  reflexivity.
Qed.

(** One answered call, seen from the history: the two new entries join
    the window of the last 18 behind the system message. *)
Lemma get_response_success create self u c a acc :
  client self = Some c ->
  create (request_for self u) = Some a ->
  conversation_history self = system_message :: py_slice_last 18 acc ->
  get_response create self u =
    (a,
     set_history self
       (system_message
        :: py_slice_last 18 (acc ++ [Message User u; Message Assistant a])),
     [request_for self u]).
Proof.
  intros Hc Ha Hh. unfold get_response, request_for, set_history in *.
  rewrite Hc. cbn [conversation_history model max_tokens temperature client].
  rewrite Ha, Hh.
  set (w := py_slice_last 18 acc).
  replace (((system_message :: w) ++ [Message User u]) ++ [Message Assistant a])
    with (system_message :: w ++ [Message User u; Message Assistant a])
    by (cbn [List.app]; now rewrite <- List.app_assoc).
  assert (Hlen : List.length (w ++ [Message User u; Message Assistant a])
                 = (Nat.min 18 (List.length acc) + 2)%nat)
    by (subst w; now rewrite List.length_app, py_slice_last_length).
  destruct (Nat.ltb_spec 19
              (List.length (system_message :: w ++ [Message User u; Message Assistant a])))
    as [Hlt | Hge]; cbn [List.length] in *.
  - cbn [List.app]. rewrite py_slice_last_cons by lia. subst w.
    rewrite py_slice_last_app. reflexivity.
  - assert (Hacc : (List.length acc <= 16)%nat) by lia.
    subst w. rewrite (py_slice_last_short 18 acc) by lia.
    rewrite py_slice_last_short by (rewrite List.length_app; simpl; lia).
    reflexivity.
Qed.

(** The head of the history never changes. *)
Lemma get_response_keeps_head create self u tl :
  conversation_history self = system_message :: tl ->
  exists tl',
    conversation_history (snd (fst (get_response create self u)))
    = system_message :: tl'.
Proof.
  intros Hh. unfold get_response, set_history.
  destruct (client self); [ | now exists tl ].
  cbn [conversation_history model max_tokens temperature client].
  rewrite Hh. cbn [List.app].
  destruct (create _); [ | eexists; reflexivity ].
  destruct (Nat.ltb _ _); eexists; reflexivity.
Qed.

Lemma reachable_head self :
  reachable self -> exists tl, conversation_history self = system_message :: tl.
Proof.
  induction 1 as [k | self c self' _ [tl IH] Hstep].
  - now exists [].
  - destruct c as [create u | ]; cbn in Hstep.
    + injection Hstep as <-. now apply get_response_keeps_head with (tl := tl).
    + unfold reset_conversation in Hstep. rewrite IH in Hstep.
      injection Hstep as <-. now exists [].
Qed.

Lemma respond_all_history calls : forall self acc,
  all_succeed self calls = true ->
  conversation_history self = system_message :: py_slice_last 18 acc ->
  conversation_history (respond_all self calls)
  = system_message :: py_slice_last 18 (acc ++ appended self calls).
Proof.
  induction calls as [ | [create u] rest IH]; intros self acc Hall Hh.
  - cbn. now rewrite List.app_nil_r.
  - cbn in Hall. apply andb_prop in Hall as [Hs Hrest].
    unfold succeeds in Hs.
    destruct (client self) as [c | ] eqn:Hc; [ | discriminate ].
    destruct (create (request_for self u)) as [a | ] eqn:Ha; [ | discriminate ].
    pose proof (get_response_success create self u c a acc Hc Ha Hh) as Hg.
    cbn [respond_all appended]. rewrite Ha.
    rewrite Hg in *. cbn [fst snd] in *.
    rewrite (IH _ (acc ++ [Message User u; Message Assistant a]) Hrest)
      by reflexivity.
    rewrite <- List.app_assoc. reflexivity.
Qed.

(** The client exists exactly when the credential is set and not empty. *)
Lemma init_client env_api_key :
  client (init env_api_key)
  = match env_api_key with
    | None | Some EmptyString => None
    | Some k => Some (OpenAI k)
    end.
Proof. now destruct env_api_key as [[ | a k] | ]. Qed.

End ConversationFacts.

Section ConversationClaims.

Import OpenAIIntegration.

(** C6.  Without a credential ([client] is [None]) [get_response]
    returns the fixed not-configured apology, sends no request to the
    backend and leaves the object, the history included, as it was;
    this for every input, every history and every backend. *)
Theorem get_response_without_client create self user_input :
  client self = None ->
  get_response create self user_input = (not_configured_reply, self, []).
Proof. intros H. unfold get_response. now rewrite H. Qed.

Lemma get_response_without_client_witness :
  client (init None) = None /\
  get_response (fun _ => Some "Hi!") (init None) "Hello"
  = (not_configured_reply, init None, []).
Proof.
  split; [ reflexivity | ].
  apply (get_response_without_client (fun _ => Some "Hi!") (init None) "Hello").
  reflexivity.
Defined.

(** C1 as stated fails: with a credential and a backend that raises,
    the call answers with the error apology and the history ends in
    the user entry, which no assistant entry follows. *)
Lemma failed_call_leaves_user_entry :
  let create : completions := fun _ => None in
  let self := init (Some "sk-test") in
  let r := get_response create self "Hello" in
  client self <> None /\
  create (request_for self "Hello") = None /\
  fst (fst r) = error_reply /\
  conversation_history (snd (fst r)) = [system_message; Message User "Hello"] /\
  dangling_user (conversation_history (snd (fst r))) = true.
Proof. cbv zeta. repeat split; try reflexivity. discriminate. Qed.

(** C1, amended.  With a credential and a backend call that raises,
    [get_response] returns the fixed error apology after sending the one
    request, and the history is the previous history followed by the
    new user entry: the entry is not taken back, nothing is trimmed. *)
Theorem get_response_backend_failure create self user_input c :
  client self = Some c ->
  create (request_for self user_input) = None ->
  get_response create self user_input
  = (error_reply,
     set_history self (conversation_history self ++ [Message User user_input]),
     [request_for self user_input])
  /\ dangling_user (conversation_history self ++ [Message User user_input]) = true.
Proof.
  intros Hc Hf. split.
  - unfold get_response, request_for, set_history in *. rewrite Hc.
    cbn [conversation_history model max_tokens temperature client].
    now rewrite Hf.
  - unfold dangling_user. now rewrite List.rev_app_distr.
Qed.

Lemma get_response_backend_failure_witness :
  let create : completions := fun _ => None in
  let self := init (Some "sk-test") in
  get_response create self "Hello"
  = (error_reply,
     set_history self (conversation_history self ++ [Message User "Hello"]),
     [request_for self "Hello"])
  /\ dangling_user (conversation_history self ++ [Message User "Hello"]) = true.
Proof.
  cbv zeta.
  apply (get_response_backend_failure
           (fun _ => None) (init (Some "sk-test")) "Hello" (OpenAI "sk-test"));
    reflexivity.
Defined.

(** C2.  After any session of answered [get_response] calls on a fresh
    instance the history starts with the system message, has at most 19
    entries, and consists of the system message followed by the last 18
    of all the entries the session appended (all of them while there are
    at most 18); so once the appended entries exceed 18 (19 with the
    system message) exactly entry 0 and the most recent 18 remain. *)
Theorem history_is_system_plus_last_18 env_api_key calls :
  all_succeed (init env_api_key) calls = true ->
  let h := conversation_history (respond_all (init env_api_key) calls) in
  let entries := appended (init env_api_key) calls in
  List.hd_error h = Some system_message
  /\ (List.length h <= 19)%nat
  /\ h = system_message :: py_slice_last 18 entries
  /\ ((18 < List.length entries)%nat ->
      List.length h = 19%nat /\ List.tl h = List.skipn (List.length entries - 18) entries).
Proof.
  intros Hall h entries.
  assert (Hh : h = system_message :: py_slice_last 18 entries).
  { subst h entries.
    rewrite (respond_all_history calls (init env_api_key) [] Hall); reflexivity. }
  rewrite Hh. repeat split.
  - cbn [List.length]. rewrite py_slice_last_length. lia.
  - cbn [List.length]. rewrite py_slice_last_length. lia.
Qed.

Lemma history_is_system_plus_last_18_witness :
  let calls := List.repeat ((fun _ => Some "Sure!") : completions, "Hello") 10 in
  let h := conversation_history (respond_all (init (Some "sk-test")) calls) in
  let entries := appended (init (Some "sk-test")) calls in
  List.hd_error h = Some system_message
  /\ (List.length h <= 19)%nat
  /\ h = system_message :: py_slice_last 18 entries
  /\ ((18 < List.length entries)%nat ->
      List.length h = 19%nat /\ List.tl h = List.skipn (List.length entries - 18) entries).
Proof.
  exact (history_is_system_plus_last_18 (Some "sk-test")
           (List.repeat ((fun _ => Some "Sure!") : completions, "Hello") 10)
           eq_refl).
Defined.

(** C10.  On every instance that [__init__] and later calls can
    produce, [reset_conversation] goes through and leaves as history the
    one-entry list holding the original system message; the other
    fields stay. *)
Theorem reset_conversation_keeps_only_system self :
  reachable self ->
  reset_conversation self = Some (set_history self [system_message]).
Proof.
  intros Hr. destruct (reachable_head self Hr) as [tl Hh].
  unfold reset_conversation. now rewrite Hh.
Qed.

Lemma reset_conversation_keeps_only_system_witness :
  let self := snd (fst (get_response (fun _ => Some "Sure!")
                                     (init (Some "sk-test")) "Hello")) in
  conversation_history self
  = [system_message; Message User "Hello"; Message Assistant "Sure!"]
  /\ reset_conversation self = Some (set_history self [system_message]).
Proof.
  cbv zeta. split; [ reflexivity | ].
  apply reset_conversation_keeps_only_system.
  apply (reach_step (init (Some "sk-test"))
                    (GetResponse (fun _ => Some "Sure!") "Hello")).
  - apply reach_init.
  - reflexivity.
Defined.

End ConversationClaims.

(* ================================================================== *)
(** * Properties of the face locator *)
(* ================================================================== *)

Section FaceTrackingFacts.

Import FaceTracking.
Open Scope Q_scope.

Lemma Qpow_pos q n : 0 < q -> 0 < Qpow q n.
Proof.
  intros Hq. induction n as [ | n IH]; cbn [Qpow]; [ reflexivity | ].
  now apply Qmult_lt_0_compat.
Qed.

Lemma Qpow_le_1 q n : 0 < q -> q <= 1 -> Qpow q n <= 1.
Proof.
  intros Hq Hq1. induction n as [ | n IH]; cbn [Qpow]; [ discriminate | ].
  pose proof (Qpow_pos q n Hq). nra.
Qed.

(** The magnitude of a value scaled by a positive factor. *)
Lemma Qabs_scale x s : 0 <= s -> Qabs (x * s) == Qabs x * s.
Proof. intros Hs. now rewrite Qabs_Qmult, (Qabs_pos s Hs). Qed.

Lemma near_centre_true x y :
  near_centre x y = true <-> Qabs x < 0.01 /\ Qabs y < 0.01.
Proof.
  unfold near_centre.
  destruct (Qlt_le_dec (Qabs x) 0.01), (Qlt_le_dec (Qabs y) 0.01);
    cbn; split; try tauto; try discriminate; intros [? ?]; lra.
Qed.

Lemma near_centre_false x y :
  near_centre x y = false <-> 0.01 <= Qabs x \/ 0.01 <= Qabs y.
Proof.
  unfold near_centre.
  destruct (Qlt_le_dec (Qabs x) 0.01), (Qlt_le_dec (Qabs y) 0.01);
    cbn; split; try tauto; try discriminate; intros [? | ?]; lra.
Qed.

(** One poll on a frame without a face, with a value stored. *)
Lemma no_face_step c x y :
  no_face c = true ->
  snd (get_face_position (Build true (Some (x, y))) c)
  = Build true (Some (if near_centre (x * 0.95) (y * 0.95)
                      then (0, 0) else (x * 0.95, y * 0.95))).
Proof.
  destruct c as [ | | h w [ | f fs]]; try discriminate. intros _.
  unfold get_face_position. cbn [cap negb last_face_position].
  now destruct (near_centre _ _).
Qed.

(** Once at the centre, always at the centre. *)
Lemma centre_stays cs :
  forallb no_face cs = true ->
  last_face_position (poll_all (Build true (Some (0, 0))) cs) = Some (0, 0).
Proof.
  induction cs as [ | c cs IH]; intros Hall; [ reflexivity | ].
  cbn in Hall. apply andb_prop in Hall as [Hc Hcs].
  cbn [poll_all]. rewrite (no_face_step c 0 0 Hc).
  replace (near_centre (0 * 0.95) (0 * 0.95)) with true by reflexivity.
  now apply IH.
Qed.

(** The decay law, for any number of face-less polls. *)
Lemma decay_run cs : forall x y,
  forallb no_face cs = true ->
  exists p,
    last_face_position (poll_all (Build true (Some (x, y))) cs) = Some p
    /\ (0.01 <= Qabs (x * Qpow 0.95 (List.length cs))
        \/ 0.01 <= Qabs (y * Qpow 0.95 (List.length cs)) ->
        position_eq p (x * Qpow 0.95 (List.length cs),
                       y * Qpow 0.95 (List.length cs)))
    /\ (Qabs (x * Qpow 0.95 (List.length cs)) < 0.01
        /\ Qabs (y * Qpow 0.95 (List.length cs)) < 0.01 ->
        cs <> [] -> p = (0, 0)).
Proof.
  induction cs as [ | c cs IH]; intros x y Hall.
  - exists (x, y). split; [ reflexivity | ]. split.
    + intros _. split; cbn; ring.
    + intros _ Hne. now elim Hne.
  - cbn in Hall. apply andb_prop in Hall as [Hc Hcs].
    cbn [poll_all List.length Qpow]. rewrite (no_face_step c x y Hc).
    set (k := List.length cs).
    assert (Hk0 : 0 < Qpow 0.95 k) by (apply Qpow_pos; reflexivity).
    assert (Hk1 : Qpow 0.95 k <= 1) by (apply Qpow_le_1; [ reflexivity | discriminate ]).
    assert (Ex : Qabs (x * (0.95 * Qpow 0.95 k)) == Qabs (x * 0.95) * Qpow 0.95 k)
      by (rewrite Qmult_assoc; apply Qabs_scale; lra).
    assert (Ey : Qabs (y * (0.95 * Qpow 0.95 k)) == Qabs (y * 0.95) * Qpow 0.95 k)
      by (rewrite Qmult_assoc; apply Qabs_scale; lra).
    pose proof (Qabs_nonneg (x * 0.95)) as Hx0.
    pose proof (Qabs_nonneg (y * 0.95)) as Hy0.
    destruct (near_centre (x * 0.95) (y * 0.95)) eqn:Hnear.
    + apply near_centre_true in Hnear as [Hnx Hny].
      exists (0, 0). split; [ now apply centre_stays | ]. split.
      * rewrite Ex, Ey. intros [H | H]; nra.
      * reflexivity.
    + apply near_centre_false in Hnear.
      destruct (IH (x * 0.95) (y * 0.95) Hcs) as (p & Hp & Hbig & Hsmall).
      fold k in Hbig, Hsmall.
      assert (Ex' : Qabs (x * 0.95 * Qpow 0.95 k) == Qabs (x * 0.95) * Qpow 0.95 k)
        by (apply Qabs_scale; lra).
      assert (Ey' : Qabs (y * 0.95 * Qpow 0.95 k) == Qabs (y * 0.95) * Qpow 0.95 k)
        by (apply Qabs_scale; lra).
      exists p. split; [ exact Hp | ]. split.
      * rewrite Ex, Ey. intros H.
        destruct Hbig as [H1 H2]; [ rewrite Ex', Ey'; exact H | ].
        split; cbn [fst snd] in *; [ rewrite H1 | rewrite H2 ]; ring.
      * rewrite Ex, Ey. intros H _. apply Hsmall.
        -- rewrite Ex', Ey'. exact H.
        -- intros ->. cbn in k. subst k. cbn [Qpow] in H. lra.
Qed.

Lemma clamp_in_range v : -1 <= clamp v /\ clamp v <= 1.
Proof.
  unfold clamp, py_max_neg1, py_min1.
  destruct (Qlt_le_dec v 1); destruct (Qlt_le_dec (-1) _); split; lra.
Qed.

(** One poll keeps the stored value in range and returns nothing out of
    range. *)
Lemma get_face_position_in_range self c :
  stored_in_range (last_face_position self) ->
  stored_in_range (fst (get_face_position self c))
  /\ stored_in_range (last_face_position (snd (get_face_position self c))).
Proof.
  intros Hinv. unfold get_face_position.
  destruct (cap self); cbn [negb]; [ | now split ].
  destruct c as [ | | h w [ | f fs]]; try (now split).
  - destruct (last_face_position self) as [[x y] | ] eqn:Hl.
    + assert (Hnew : in_range (if near_centre (x * 0.95) (y * 0.95)
                               then (0, 0) else (x * 0.95, y * 0.95))).
      { destruct (near_centre _ _).
        - unfold in_range; cbn; repeat split; discriminate.
        - destruct Hinv as [[? ?] [? ?]]. unfold in_range; cbn in *.
          repeat split; lra. }
      destruct (near_centre _ _); cbn; now split.
    + cbn. rewrite Hl. split; [ | exact I ].
      unfold in_range; cbn; repeat split; discriminate.
  - destruct (py_max_by area f fs) as [[[x y] w'] h'].
    destruct (py_truediv _ _) as [nx | ]; [ | now split ].
    destruct (py_truediv _ _) as [ny | ]; [ | now split ].
    cbn. split; split; apply clamp_in_range.
Qed.


(** A frame with a face, wide and high enough for the two divisions:
    the poll stores and returns the clamped, normalised centre of the
    largest rectangle. *)
Lemma detected_face_returned self frame_height frame_width f fs :
  cap self = true ->
  (frame_width / 2 <> 0)%Z ->
  (frame_height / 2 <> 0)%Z ->
  let '(x, y, w, h) := py_max_by area f fs in
  let p := (clamp (inject_Z (x + w / 2 - frame_width / 2)
                   / inject_Z (frame_width / 2)),
            clamp (inject_Z (y + h / 2 - frame_height / 2)
                   / inject_Z (frame_height / 2))) in
  get_face_position self (Frame frame_height frame_width (f :: fs))
  = (Some p, set_last self (Some p))
  /\ in_range p.
Proof.
  intros Hcap Hw Hh. unfold get_face_position. rewrite Hcap. cbn [negb].
  destruct (py_max_by area f fs) as [[[x y] w] h].
  unfold py_truediv.
  apply Z.eqb_neq in Hw, Hh. rewrite Hw, Hh.
  split; [ reflexivity | ].
  split; apply clamp_in_range.
Qed.

(** Of two faces the larger one is followed; here its centre is 20
    pixels right of the centre of a 640 x 480 frame. *)
Example largest_face_is_followed :
  fst (get_face_position (init true)
         (Frame 480 640 [(100, 100, 50, 50); (300, 200, 80, 80)]%Z))
  = Some (20 # 320, 0 # 240).
Proof. reflexivity. Qed.

(** A face past the frame's edge is clamped. *)
Example face_past_the_edge_is_clamped :
  fst (get_face_position (init true) (Frame 480 640 [(700, -300, 80, 80)]%Z))
  = Some (1, -1).
Proof. reflexivity. Qed.

(** Without a camera nothing is returned. *)
Example no_camera_no_value c : get_face_position (init false) c = (None, init false).
Proof. reflexivity. Qed.

End FaceTrackingFacts.

Section FaceTrackingClaims.

Import FaceTracking.
Open Scope Q_scope.




(** C9 as stated fails: on a fresh instance a poll that captures a
    frame without a face returns [(0, 0)], and nothing is stored. *)
Lemma first_poll_without_face_stores_nothing :
  let r := get_face_position (init true) (Frame 480 640 []) in
  last_face_position (init true) = None
  /\ fst r = Some (0, 0)
  /\ last_face_position (snd r) = None
  /\ last_face_position (snd r) <> Some (0, 0).
Proof. cbv zeta. repeat split. discriminate. Qed.

(** C9, amended.  When a poll captures a frame, detects no face, and
    no previous value is stored, it returns [(0, 0)] and leaves the
    object as it was: still no stored value. *)
Theorem poll_without_face_and_without_stored_value self frame_height frame_width :
  cap self = true ->
  last_face_position self = None ->
  get_face_position self (Frame frame_height frame_width []) = (Some (0, 0), self).
Proof.
  intros Hcap Hlast. unfold get_face_position. now rewrite Hcap, Hlast.
Qed.

Lemma poll_without_face_and_without_stored_value_witness :
  get_face_position (init true) (Frame 480 640 []) = (Some (0, 0), init true).
Proof.
  apply (poll_without_face_and_without_stored_value (init true) 480 640);
    reflexivity.
Defined.

End FaceTrackingClaims.

(* ================================================================== *)
(** * Properties of the eye animation *)
(* ================================================================== *)

Section AnimationFacts.

Import DeskbotGUI.

(** The blink fields after a tick depend on the blink fields alone. *)
Lemma animate_blink self :
  let t' := (blink_timer self + 1)%Z in
  blink_timer (animate self)
  = (if (150 <? t')%Z then if (155 <? t')%Z then 0 else t' else t')%Z
  /\ is_blinking (animate self)
     = (if (150 <? t')%Z then if (155 <? t')%Z then false else true
        else is_blinking self).
Proof.
  cbv zeta. unfold animate.
  destruct (150 <? blink_timer self + 1)%Z;
    [ destruct (155 <? blink_timer self + 1)%Z | ]; now split.
Qed.

(** From a rested blink state the counter counts modulo 156 and the
    flag is set on the last five values. *)
Lemma ticks_blink self n :
  blink_timer self = 0%Z -> is_blinking self = false ->
  blink_timer (ticks n self) = (Z.of_nat n mod 156)%Z
  /\ is_blinking (ticks n self) = (150 <? Z.of_nat n mod 156)%Z.
Proof.
  intros Ht Hb. induction n as [ | n [IHt IHb]].
  - cbn. now rewrite Ht, Hb.
  - cbn [ticks]. destruct (animate_blink (ticks n self)) as [Et Eb].
    rewrite Et, Eb, IHt, IHb. clear Et Eb IHt IHb.
    rewrite Nat2Z.inj_succ. unfold Z.succ.
    set (m := Z.of_nat n). assert (Hm : (0 <= m)%Z) by (subst m; lia).
    clearbody m.
    pose proof (Z.div_mod m 156 ltac:(lia)) as D1.
    pose proof (Z.mod_pos_bound m 156 ltac:(lia)) as B1.
    pose proof (Z.div_mod (m + 1) 156 ltac:(lia)) as D2.
    pose proof (Z.mod_pos_bound (m + 1) 156 ltac:(lia)) as B2.
    set (r := (m mod 156)%Z) in *. set (r' := ((m + 1) mod 156)%Z) in *.
    set (d := (m / 156)%Z) in *. set (d' := ((m + 1) / 156)%Z) in *.
    clearbody r r' d d'.
    destruct (Z.ltb_spec 150 (r + 1)); destruct (Z.ltb_spec 155 (r + 1));
      destruct (Z.ltb_spec 150 r); destruct (Z.ltb_spec 150 r');
      split; try reflexivity; try lia.
Qed.

(** The targets are not touched by a tick. *)
Lemma ticks_targets self n :
  target_eye_x (ticks n self) = target_eye_x self
  /\ target_eye_y (ticks n self) = target_eye_y self.
Proof.
  induction n as [ | n [IHx IHy]]; [ now split | ].
  cbn [ticks]. unfold animate.
  destruct (if (150 <? _)%Z then _ else _). cbn. now split.
Qed.

(** From offsets 0 each component runs through [smoothed]. *)
Lemma ticks_offsets self n :
  left_eye_x self = 0 -> left_eye_y self = 0 ->
  right_eye_x self = 0 -> right_eye_y self = 0 ->
  left_eye_x (ticks n self) = smoothed (target_eye_x self) n
  /\ left_eye_y (ticks n self) = smoothed (target_eye_y self) n
  /\ right_eye_x (ticks n self) = smoothed (target_eye_x self) n
  /\ right_eye_y (ticks n self) = smoothed (target_eye_y self) n.
Proof.
  intros H1 H2 H3 H4. induction n as [ | n (I1 & I2 & I3 & I4)].
  - cbn. now rewrite H1, H2, H3, H4.
  - destruct (ticks_targets self n) as [Tx Ty].
    cbn [ticks smoothed]. unfold animate.
    destruct (if (150 <? _)%Z then _ else _). cbn.
    now rewrite I1, I2, I3, I4, Tx, Ty.
Qed.

Lemma smoothed_closed_form target n :
  smoothed target n == target * (1 - Qpow 0.85 n).
Proof.
  induction n as [ | n IH]; cbn [smoothed Qpow]; [ ring | ].
  rewrite IH. ring.
Qed.

Lemma smoothed_gap target n :
  target - smoothed target n == target * Qpow 0.85 n.
Proof. rewrite smoothed_closed_form. ring. Qed.

(** Bernoulli's bound, which makes [0.85 ^ n] as small as wanted. *)
Lemma Qpow_085_bound n :
  Qpow 0.85 n * (1 + (3 # 17) * inject_Z (Z.of_nat n)) <= 1.
Proof.
  induction n as [ | n IH].
  - cbn. discriminate.
  - rewrite Nat2Z.inj_succ. unfold Z.succ. rewrite inject_Z_plus.
    cbn [Qpow].
    assert (Ha : 0 < Qpow 0.85 n) by (apply Qpow_pos; reflexivity).
    assert (Hb : Qpow 0.85 n <= 1)
      by (apply Qpow_le_1; [ reflexivity | discriminate ]).
    set (a := Qpow 0.85 n) in *. set (b := inject_Z (Z.of_nat n)) in *.
    change (inject_Z 1) with 1. nra.
Qed.

Lemma smoothed_converges target :
  converges_smoothly (smoothed target) target.
Proof.
  assert (Hp : forall n, 0 < Qpow 0.85 n) by (intros; apply Qpow_pos; reflexivity).
  assert (Hgap : forall n, Qabs (target - smoothed target n)
                           == Qabs target * Qpow 0.85 n).
  { intros n. rewrite smoothed_gap. apply Qabs_scale.
    apply Qlt_le_weak, Hp. }
  pose proof (Qabs_nonneg target) as Ht.
  repeat split.
  - apply smoothed_closed_form.
  - intros n. rewrite !Hgap. cbn [Qpow]. specialize (Hp n). nra.
  - pose proof (smoothed_gap target n) as G. specialize (Hp n).
    cbn [smoothed]. nra.
  - pose proof (smoothed_gap target (S n)) as G. specialize (Hp (S n)). nra.
  - pose proof (smoothed_gap target (S n)) as G. specialize (Hp (S n)). nra.
  - pose proof (smoothed_gap target n) as G. specialize (Hp n).
    cbn [smoothed]. nra.
  - intros eps Heps.
    set (r := 6 * Qabs target / eps).
    exists (Z.to_nat (Qceiling r)). intros n Hn.
    rewrite Hgap.
    assert (Hr : r * eps == 6 * Qabs target)
      by (unfold r; field; lra).
    assert (Hc : r <= inject_Z (Z.of_nat n)).
    { apply Qle_trans with (inject_Z (Qceiling r)); [ apply Qle_ceiling | ].
      rewrite <- Zle_Qle. lia. }
    pose proof (Qpow_085_bound n) as Hb. specialize (Hp n).
    set (a := Qpow 0.85 n) in *. set (m := inject_Z (Z.of_nat n)) in *.
    set (T := Qabs target) in *.
    assert (H1 : T < eps * (1 + (3 # 17) * m)) by nra.
    assert (H2 : T * a < eps * ((1 + (3 # 17) * m) * a)) by nra.
    nra.
Qed.

End AnimationFacts.

Section AnimationClaims.

Import DeskbotGUI.

(** C4.  From blink counter 0 with the flag down, whatever the other
    fields: after 151 ticks the flag is up; after 156 ticks it is down
    and the counter is back at 0; and after any number of ticks the flag
    is up, and the eyes are drawn closed, exactly when the counter lies in
    (150, 155], the counter being the number of ticks modulo 156. *)
Theorem blink_cycle lx ly rx ry tx ty e :
  let self := Build lx ly rx ry tx ty e 0 false in
  is_blinking (ticks 151 self) = true
  /\ (is_blinking (ticks 156 self) = false /\ blink_timer (ticks 156 self) = 0%Z)
  /\ (forall n,
        blink_timer (ticks n self) = (Z.of_nat n mod 156)%Z
        /\ (is_blinking (ticks n self) = true
            <-> (150 < blink_timer (ticks n self) <= 155)%Z)
        /\ (draw_eyes (ticks n self) = ClosedEyes
            <-> (150 < blink_timer (ticks n self) <= 155)%Z)).
Proof.
  intros self.
  assert (H : forall n,
             blink_timer (ticks n self) = (Z.of_nat n mod 156)%Z
             /\ is_blinking (ticks n self) = (150 <? Z.of_nat n mod 156)%Z)
    by (intros n; now apply ticks_blink).
  split; [ | split ].
  - now rewrite (proj2 (H 151%nat)).
  - now rewrite (proj1 (H 156%nat)), (proj2 (H 156%nat)).
  - intros n. destruct (H n) as [Ht Hb].
    pose proof (Z.mod_pos_bound (Z.of_nat n) 156 ltac:(lia)) as Hbound.
    assert (Hflag : is_blinking (ticks n self) = true
                    <-> (150 < blink_timer (ticks n self) <= 155)%Z).
    { rewrite Hb, Ht. rewrite Z.ltb_lt. lia. }
    split; [ exact Ht | ]. split; [ exact Hflag | ].
    rewrite <- Hflag. unfold draw_eyes.
    destruct (is_blinking (ticks n self)); cbn; split; congruence.
Qed.

(** C5.  Exact arithmetic.  From eye offsets 0 and under constant
    targets, after [n] ticks each of the four offset components equals
    [target * (1 - 0.85^n)] for its target, and it approaches the target
    monotonically: the gap never grows, the offset never passes the
    target, and the gap falls below every positive bound. *)
Theorem smoothing_convergence tx ty e timer blinking :
  let self := Build 0 0 0 0 tx ty e timer blinking in
  converges_smoothly (fun n => left_eye_x (ticks n self)) tx
  /\ converges_smoothly (fun n => left_eye_y (ticks n self)) ty
  /\ converges_smoothly (fun n => right_eye_x (ticks n self)) tx
  /\ converges_smoothly (fun n => right_eye_y (ticks n self)) ty.
Proof.
  intros self.
  assert (H : forall n,
             left_eye_x (ticks n self) = smoothed tx n
             /\ left_eye_y (ticks n self) = smoothed ty n
             /\ right_eye_x (ticks n self) = smoothed tx n
             /\ right_eye_y (ticks n self) = smoothed ty n)
    by (intros n; now apply (ticks_offsets self n)).
  assert (T : forall (f : nat -> Q) t,
             (forall n, f n = smoothed t n) -> converges_smoothly f t).
  { intros f t Hf. destruct (smoothed_converges t) as (C1 & C2 & C3 & C4 & C5).
    repeat split; intros; rewrite ?Hf.
    - apply C1.
    - apply C2.
    - now apply C3.
    - now apply C3.
    - now apply C4.
    - now apply C4.
    - destruct (C5 eps) as [N HN]; [ assumption | ].
      exists N. intros n Hn. rewrite Hf. now apply HN. }
  split; [ | split; [ | split ] ]; apply T; intros n;
    destruct (H n) as (? & ? & ? & ?); assumption.
Qed.

End AnimationClaims.

(* ================================================================== *)
(** * Properties of the wake-word test *)
(* ================================================================== *)

Section WakeWordFacts.

Import VoiceRecognition.

Lemma prefix_iff p : forall s,
  prefix p s = true <-> exists post, s = append p post.
Proof.
  induction p as [ | a p IH]; intros s.
  - destruct s; cbn; split; eauto.
  - destruct s as [ | b s]; cbn.
    + split; [ discriminate | intros [post H]; discriminate ].
    + destruct (ascii_dec a b) as [-> | Hab].
      * rewrite IH. split; intros [post H]; exists post; congruence.
      * split; [ discriminate | intros [post H]; congruence ].
Qed.

(** The [in] test decides containment as a contiguous substring. *)
Lemma py_in_iff w : forall s, py_in w s = true <-> contains s w.
Proof.
  unfold contains. induction s as [ | c s IH]; cbn [py_in].
  - rewrite orb_false_r, prefix_iff. split.
    + intros [post H]. now exists EmptyString, post.
    + intros (pre & post & H). exists post.
      destruct pre; [ exact H | discriminate ].
  - rewrite orb_true_iff, prefix_iff, IH. split.
    + intros [[post H] | (pre & post & H)].
      * now exists EmptyString, post.
      * exists (String c pre), post. cbn. now rewrite H.
    + intros (pre & post & H). destruct pre as [ | c' pre]; cbn in H.
      * left. now exists post.
      * right. exists pre, post. congruence.
Qed.

Lemma check_wake_word_iff self text :
  check_wake_word self text = true
  <-> exists t, text = Some t /\ t <> EmptyString
                /\ contains (lower t) (join " " (split (wake_word self))).
Proof.
  unfold check_wake_word. destruct text as [[ | c t] | ].
  - split; [ discriminate | intros (t & Ht & Hne & _) ].
    injection Ht as <-. now elim Hne.
  - rewrite py_in_iff. split.
    + intros H. exists (String c t). repeat split; [ discriminate | exact H ].
    + intros (t' & Ht & _ & H). injection Ht as <-. exact H.
  - split; [ discriminate | intros (t & Ht & _) ]. discriminate.
Qed.

End WakeWordFacts.

Section WakeWordClaims.

Import VoiceRecognition.

(** C7 as stated fails.  With [WAKE_WORD] set to a phrase with two
    spaces between its words, a text that does not contain the
    lower-cased configured phrase is accepted, because the test looks for
    the phrase with its white space normalised; and a text that does
    contain the configured phrase is rejected, against the method's own
    docstring. *)
Lemma wake_word_with_two_spaces :
  let self := init (Some "Hey  Deskbot") in
  wake_word self = "hey  deskbot"
  /\ contains (lower "Hey  Deskbot, what time is it") (wake_word self)
  /\ check_wake_word self (Some "Hey  Deskbot, what time is it") = false
  /\ ~ contains (lower "Hey Deskbot, what time is it") (wake_word self)
  /\ check_wake_word self (Some "Hey Deskbot, what time is it") = true.
Proof.
  cbv zeta. split; [ reflexivity | ]. split; [ | split; [ reflexivity | split ] ].
  - now exists EmptyString, ", what time is it".
  - rewrite <- py_in_iff. now vm_compute.
  - reflexivity.
Qed.

(** C7, amended.  [check_wake_word(text)] is false for a missing or empty
    text; it is true for every non-empty text whose lower-cased form
    contains, as a contiguous substring, the lower-cased wake phrase with
    its white space normalised (split at white space and joined again with
    single spaces); it is false for every text whose lower-cased form
    contains neither that normalised phrase nor the configured phrase.
    When the configured phrase is its own normalised form, as the default
    "hey deskbot" is, the answer is true if and only if the non-empty
    lower-cased text contains the configured phrase; "Hey Deskbot, what
    time is it" is accepted and "hello there" is rejected.  Nothing is
    said about a text that contains the configured phrase but not its
    normalised form. *)
Theorem check_wake_word_by_design :
  (forall self, check_wake_word self None = false
                /\ check_wake_word self (Some EmptyString) = false)
  /\ (forall self t,
        t <> EmptyString ->
        contains (lower t) (join " " (split (wake_word self))) ->
        check_wake_word self (Some t) = true)
  /\ (forall self t,
        ~ contains (lower t) (join " " (split (wake_word self))) ->
        ~ contains (lower t) (wake_word self) ->
        check_wake_word self (Some t) = false)
  /\ (forall self text,
        join " " (split (wake_word self)) = wake_word self ->
        (check_wake_word self text = true
         <-> exists t, text = Some t /\ t <> EmptyString
                       /\ contains (lower t) (wake_word self)))
  /\ wake_word (init None) = "hey deskbot"
  /\ join " " (split (wake_word (init None))) = wake_word (init None)
  /\ check_wake_word (init None) (Some "Hey Deskbot, what time is it") = true
  /\ check_wake_word (init None) (Some "hello there") = false.
Proof.
  split; [ now split | ].
  split; [ | split; [ | split ] ].
  - intros self t Hne Hc. apply check_wake_word_iff. now exists t.
  - intros self t Hn _.
    destruct (check_wake_word self (Some t)) eqn:E; [ | reflexivity ].
    apply check_wake_word_iff in E as (t' & Ht & _ & Hc).
    injection Ht as <-. now elim Hn.
  - intros self text Hnorm. rewrite check_wake_word_iff, Hnorm. reflexivity.
  - repeat split.
Qed.

Lemma check_wake_word_by_design_witness :
  check_wake_word (init (Some "Hey  Deskbot")) (Some "Hey Deskbot, what time is it")
  = true
  /\ check_wake_word (init (Some "Hey  Deskbot")) (Some "hello there") = false
  /\ (check_wake_word (init None) (Some "OK, hey deskbot!") = true
      <-> exists t, Some "OK, hey deskbot!" = Some t /\ t <> EmptyString
                    /\ contains (lower t) (wake_word (init None))).
Proof.
  destruct check_wake_word_by_design as (_ & Hyes & Hno & Hiff & _).
  split; [ | split ].
  - apply (Hyes (init (Some "Hey  Deskbot")) "Hey Deskbot, what time is it").
    + discriminate.
    + now exists EmptyString, ", what time is it".
  - apply (Hno (init (Some "Hey  Deskbot")) "hello there");
      rewrite <- py_in_iff; now vm_compute.
  - apply (Hiff (init None) (Some "OK, hey deskbot!")). reflexivity.
Defined.

End WakeWordClaims.

(* ================================================================== *)
(** * Further properties of the conversation *)
(* ================================================================== *)

Section ConversationMore.

Import OpenAIIntegration.

(** No call touches the client or the sampling parameters. *)
Lemma get_response_keeps_settings create self u :
  let self' := snd (fst (get_response create self u)) in
  client self' = client self /\ model self' = model self
  /\ max_tokens self' = max_tokens self /\ temperature self' = temperature self.
Proof.
  cbv zeta. unfold get_response, set_history.
  destruct (client self) as [c | ] eqn:Hc; [ | cbn; now rewrite Hc ].
  cbn [conversation_history model max_tokens temperature client].
  destruct (create _); [ | now cbn ].
  destruct (Nat.ltb _ _); [ | now cbn ].
  destruct (_ ++ _); now cbn.
Qed.

(** The object after a call on which the backend raised. *)
Lemma get_response_failure_state create self u c :
  client self = Some c ->
  create (request_for self u) = None ->
  snd (fst (get_response create self u))
  = set_history self (conversation_history self ++ [Message User u]).
Proof.
  intros Hc Hf. unfold get_response, request_for, set_history in *. rewrite Hc.
  cbn [conversation_history model max_tokens temperature client].
  now rewrite Hf.
Qed.

Lemma step_keeps_settings self c self' :
  step self c = Some self' ->
  client self' = client self /\ model self' = model self
  /\ max_tokens self' = max_tokens self /\ temperature self' = temperature self.
Proof.
  destruct c as [create u | ]; cbn.
  - intros H. injection H as <-. apply get_response_keeps_settings.
  - unfold reset_conversation. destruct (conversation_history self); [ discriminate | ].
    intros H. injection H as <-. now cbn.
Qed.

Lemma reachable_settings self :
  reachable self ->
  model self = "gpt-3.5-turbo" /\ max_tokens self = 150%Z /\ temperature self = 7 # 10.
Proof.
  induction 1 as [k | self c self' _ IH Hstep]; [ now cbn | ].
  destruct (step_keeps_settings self c self' Hstep) as (_ & -> & -> & ->).
  exact IH.
Qed.

(** The last [n] entries of a list that ends in [z], when [z] fits. *)
Lemma py_slice_last_keeps_suffix {A} (n : nat) (l z : list A) :
  (List.length z <= n)%nat ->
  exists pre, py_slice_last n (l ++ z) = pre ++ z.
Proof.
  intros Hz. unfold py_slice_last. rewrite List.length_app, List.skipn_app.
  exists (List.skipn (List.length l + List.length z - n) l).
  f_equal. replace (List.length l + List.length z - n - List.length l)%nat
    with 0%nat by lia. reflexivity.
Qed.

(** X1.  Every call on an instance with a client sends exactly one
    request: model "gpt-3.5-turbo", at most 150 tokens, temperature 0.7,
    and as messages the history so far followed by the new user entry,
    the system message first. *)
Theorem request_sent_by_get_response create self user_input c :
  reachable self ->
  client self = Some c ->
  exists earlier,
    conversation_history self = system_message :: earlier
    /\ snd (get_response create self user_input)
       = [Request "gpt-3.5-turbo"
                  (system_message :: earlier ++ [Message User user_input])
                  150 (7 # 10)].
Proof.
  intros Hr Hc. destruct (reachable_head self Hr) as [tl Hh].
  destruct (reachable_settings self Hr) as (Hm & Ht & Hq).
  exists tl. split; [ exact Hh | ].
  unfold get_response, set_history. rewrite Hc.
  cbn [conversation_history model max_tokens temperature client].
  rewrite Hh, Hm, Ht, Hq. cbn [List.app].
  destruct (create _); [ | reflexivity ].
  destruct (Nat.ltb _ _); reflexivity.
Qed.

Lemma request_sent_by_get_response_witness :
  exists earlier,
    conversation_history (init (Some "sk-test")) = system_message :: earlier
    /\ snd (get_response (fun _ => None) (init (Some "sk-test")) "Hello")
       = [Request "gpt-3.5-turbo"
                  (system_message :: earlier ++ [Message User "Hello"])
                  150 (7 # 10)].
Proof.
  apply (request_sent_by_get_response (fun _ => None) (init (Some "sk-test"))
           "Hello" (OpenAI "sk-test")).
  - apply reach_init.
  - reflexivity.
Defined.

(** X2.  Failed calls are not covered by the cap: a session in which
    every backend call raises leaves the history it found followed by one
    user entry per call, however long that gets. *)
Theorem failed_calls_grow_history self calls c :
  client self = Some c ->
  all_fail self calls = true ->
  conversation_history (respond_all self calls)
  = conversation_history self
    ++ List.map (fun call => Message User (snd call)) calls.
Proof.
  revert self. induction calls as [ | [create u] rest IH]; intros self Hc Hall.
  - cbn. now rewrite List.app_nil_r.
  - cbn [all_fail] in Hall.
    destruct (create (request_for self u)) eqn:Hf; [ discriminate | ].
    pose proof (get_response_failure_state create self u c Hc Hf) as Hg.
    cbn [respond_all List.map snd]. rewrite Hg in *.
    rewrite (IH (set_history self _) Hc Hall). cbn [conversation_history set_history].
    now rewrite <- List.app_assoc.
Qed.

Lemma failed_calls_grow_history_witness :
  let calls := List.repeat ((fun _ => None) : completions, "Hello") 25 in
  conversation_history (respond_all (init (Some "sk-test")) calls)
  = conversation_history (init (Some "sk-test"))
    ++ List.map (fun call => Message User (snd call)) calls.
Proof.
  exact (failed_calls_grow_history (init (Some "sk-test"))
           (List.repeat ((fun _ => None) : completions, "Hello") 25)
           (OpenAI "sk-test") eq_refl eq_refl).
Defined.

(** X3.  A call the backend answers returns the backend's text and
    leaves a history of at most 19 entries that ends in the user entry
    and the assistant entry of this call and still starts with the entry
    it started with; this from any history, also one that failed calls
    have made longer than 19. *)
Theorem answered_call_restores_the_cap create self user_input c a :
  client self = Some c ->
  create (request_for self user_input) = Some a ->
  let r := get_response create self user_input in
  let h := conversation_history (snd (fst r)) in
  fst (fst r) = a
  /\ (List.length h <= 19)%nat
  /\ (exists pre, h = pre ++ [Message User user_input; Message Assistant a])
  /\ (forall m0 tl, conversation_history self = m0 :: tl -> List.hd_error h = Some m0).
Proof.
  intros Hc Ha. cbv zeta.
  unfold get_response, request_for, set_history in *. rewrite Hc.
  cbn [conversation_history model max_tokens temperature client].
  rewrite Ha.
  replace ((conversation_history self ++ [Message User user_input])
           ++ [Message Assistant a])
    with (conversation_history self
          ++ [Message User user_input; Message Assistant a])
    by now rewrite <- List.app_assoc.
  set (z := [Message User user_input; Message Assistant a]).
  destruct (Nat.ltb_spec 19 (List.length (conversation_history self ++ z)))
    as [Hlt | Hge].
  - destruct (py_slice_last_keeps_suffix 18 (conversation_history self) z)
      as [pre Hpre]; [ cbn; lia | ].
    destruct (conversation_history self ++ z) as [ | m0 rest] eqn:Hh2;
      [ cbn in Hlt; lia | ].
    cbn [fst snd conversation_history]. rewrite Hpre.
    split; [ reflexivity | ]. split; [ | split ].
    + rewrite <- Hpre. cbn [List.app List.length].
      rewrite py_slice_last_length. lia.
    + now exists (m0 :: pre).
    + intros m tl Hself. rewrite Hself in Hh2. cbn [List.app] in Hh2.
      injection Hh2 as -> _. reflexivity.
  - cbn [fst snd conversation_history].
    split; [ reflexivity | ]. split; [ exact Hge | ]. split.
    + now exists (conversation_history self).
    + intros m tl Hself. now rewrite Hself.
Qed.

Lemma answered_call_restores_the_cap_witness :
  let failing := List.repeat ((fun _ => None) : completions, "Hello") 25 in
  let self := respond_all (init (Some "sk-test")) failing in
  let r := get_response (fun _ => Some "Sure!") self "Hello again" in
  let h := conversation_history (snd (fst r)) in
  List.length (conversation_history self) = 26%nat
  /\ fst (fst r) = "Sure!"
  /\ (List.length h <= 19)%nat
  /\ (exists pre, h = pre ++ [Message User "Hello again"; Message Assistant "Sure!"])
  /\ (forall m0 tl, conversation_history self = m0 :: tl -> List.hd_error h = Some m0).
Proof.
  cbv zeta. split; [ reflexivity | ].
  apply (answered_call_restores_the_cap (fun _ => Some "Sure!")
           (respond_all (init (Some "sk-test"))
              (List.repeat ((fun _ => None) : completions, "Hello") 25))
           "Hello again" (OpenAI "sk-test")); reflexivity.
Defined.

(** X4.  Without a credential nothing ever changes: whatever calls are
    made, the instance stays the one [__init__] built, its history the
    system message alone. *)
Theorem instance_without_client_never_changes self :
  reachable self ->
  client self = None ->
  self = init None.
Proof.
  induction 1 as [k | self c self' _ IH Hstep]; intros Hc.
  - destruct k as [[ | a k] | ]; [ reflexivity | discriminate | reflexivity ].
  - destruct (step_keeps_settings self c self' Hstep) as (Hc' & _).
    rewrite Hc in Hc'. symmetry in Hc'. specialize (IH Hc'). subst self.
    destruct c as [create u | ]; cbn in Hstep; injection Hstep as <-; reflexivity.
Qed.

Lemma instance_without_client_never_changes_witness :
  snd (fst (get_response (fun _ => Some "Sure!") (init (Some "")) "Hello"))
  = init None.
Proof.
  apply instance_without_client_never_changes.
  - apply (reach_step (init (Some "")) (GetResponse (fun _ => Some "Sure!") "Hello")).
    + apply reach_init.
    + reflexivity.
  - reflexivity.
Defined.

(** X5.  [reset_conversation] forgets the context: on any instance the
    calls can produce, with or without a client, it goes through and
    leaves the system message alone, and a second reset changes nothing
    more; on an instance with a client the next call, answered or not,
    sends the system message and the new user entry alone, and when it is
    answered the history is exactly these two and the reply. *)
Theorem reset_forgets_the_context self :
  reachable self ->
  exists fresh,
    reset_conversation self = Some fresh
    /\ reset_conversation fresh = Some fresh
    /\ conversation_history fresh = [system_message]
    /\ (forall create user_input c,
          client self = Some c ->
          snd (get_response create fresh user_input)
          = [Request "gpt-3.5-turbo"
                     [system_message; Message User user_input] 150 (7 # 10)]
          /\ (forall a,
                create (Request "gpt-3.5-turbo"
                                [system_message; Message User user_input]
                                150 (7 # 10)) = Some a ->
                get_response create fresh user_input
                = (a,
                   set_history fresh
                     [system_message; Message User user_input; Message Assistant a],
                   [Request "gpt-3.5-turbo"
                            [system_message; Message User user_input]
                            150 (7 # 10)]))).
Proof.
  intros Hr. destruct (reachable_head self Hr) as [tl Hh].
  destruct (reachable_settings self Hr) as (Hm & Ht & Hq).
  exists (set_history self [system_message]).
  split; [ unfold reset_conversation; now rewrite Hh | ].
  split; [ reflexivity | ]. split; [ reflexivity | ].
  intros create user_input c Hc.
  unfold get_response, set_history.
  cbn [conversation_history model max_tokens temperature client].
  rewrite Hc, Hm, Ht, Hq. cbn [List.app]. split.
  - now destruct (create _).
  - intros a Ha. rewrite Ha. reflexivity.
Qed.

Lemma reset_forgets_the_context_witness :
  let self := snd (fst (get_response (fun _ => Some "Sure!")
                                     (init (Some "sk-test")) "Hello")) in
  exists fresh,
    reset_conversation self = Some fresh
    /\ reset_conversation fresh = Some fresh
    /\ conversation_history fresh = [system_message]
    /\ (forall create user_input c,
          client self = Some c ->
          snd (get_response create fresh user_input)
          = [Request "gpt-3.5-turbo"
                     [system_message; Message User user_input] 150 (7 # 10)]
          /\ (forall a,
                create (Request "gpt-3.5-turbo"
                                [system_message; Message User user_input]
                                150 (7 # 10)) = Some a ->
                get_response create fresh user_input
                = (a,
                   set_history fresh
                     [system_message; Message User user_input; Message Assistant a],
                   [Request "gpt-3.5-turbo"
                            [system_message; Message User user_input]
                            150 (7 # 10)]))).
Proof.
  cbv zeta. apply reset_forgets_the_context.
  apply (reach_step (init (Some "sk-test"))
                    (GetResponse (fun _ => Some "Sure!") "Hello")).
  - apply reach_init.
  - reflexivity.
Defined.

End ConversationMore.

(* ================================================================== *)
(** * Further properties of the face locator *)
(* ================================================================== *)

Section FaceTrackingMore.

Import FaceTracking.
Open Scope Q_scope.

(** [max] with a key: the list splits at the selected entry, everything
    before it has a strictly smaller key, nothing after it a larger
    one. *)
Lemma py_max_by_split key : forall rest best,
  exists before after,
    best :: rest = before ++ py_max_by key best rest :: after
    /\ (forall g, List.In g before -> (key g < key (py_max_by key best rest))%Z)
    /\ (forall g, List.In g after -> (key g <= key (py_max_by key best rest))%Z).
Proof.
  induction rest as [ | f rest IH]; intros best.
  - exists [], []. cbn. repeat split; intros g [].
  - cbn [py_max_by]. destruct (Z.ltb_spec (key best) (key f)) as [Hlt | Hge].
    + destruct (IH f) as (before & after & Hsplit & Hb & Ha).
      exists (best :: before), after. split; [ cbn [List.app]; congruence | ].
      split; [ | exact Ha ].
      intros g [<- | Hg]; [ | now apply Hb ].
      assert (Hf : List.In f (before ++ py_max_by key f rest :: after))
        by (rewrite <- Hsplit; now left).
      apply List.in_app_or in Hf as [Hf | [Hf | Hf]].
      * specialize (Hb f Hf). lia.
      * rewrite Hf in *. exact Hlt.
      * specialize (Ha f Hf). lia.
    + destruct (IH best) as (before & after & Hsplit & Hb & Ha).
      destruct before as [ | b before]; cbn [List.app] in Hsplit.
      * injection Hsplit as Hbest Hrest.
        exists [], (f :: after). cbn [List.app].
        split; [ congruence | ]. split; [ intros g [] | ].
        intros g [<- | Hg]; [ rewrite <- Hbest; exact Hge | now apply Ha ].
      * injection Hsplit as Hbest Hrest. subst b.
        exists (best :: f :: before), after. cbn [List.app].
        split; [ congruence | ]. split; [ | exact Ha ].
        intros g [<- | [<- | Hg]].
        -- apply Hb. now left.
        -- specialize (Hb best (or_introl eq_refl)). lia.
        -- apply Hb. now right.
Qed.

(** X6.  The face that is followed is one of the detected rectangles,
    no detected rectangle has a larger area [w * h], and of several with
    the largest area the first in the detector's order is taken. *)
Theorem followed_face_is_first_largest f fs :
  let best := py_max_by area f fs in
  List.In best (f :: fs)
  /\ (forall g, List.In g (f :: fs) -> (area g <= area best)%Z)
  /\ (exists before after,
        f :: fs = before ++ best :: after
        /\ forall g, List.In g before -> (area g < area best)%Z).
Proof.
  cbv zeta. destruct (py_max_by_split area fs f) as (before & after & Hsplit & Hb & Ha).
  split; [ | split ].
  - rewrite Hsplit. apply List.in_or_app. right. now left.
  - intros g Hg. rewrite Hsplit in Hg.
    apply List.in_app_or in Hg as [Hg | [<- | Hg]].
    + specialize (Hb g Hg). lia.
    + lia.
    + now apply Ha.
  - now exists before, after.
Qed.

Lemma clamp_sign v :
  (0 < clamp v <-> 0 < v) /\ (clamp v < 0 <-> v < 0) /\ (clamp v == 0 <-> v == 0).
Proof.
  unfold clamp, py_max_neg1, py_min1.
  destruct (Qlt_le_dec v 1); destruct (Qlt_le_dec (-1) _);
    repeat split; intros; lra.
Qed.

Lemma quotient_sign a b :
  (0 < b)%Z ->
  (0 < inject_Z a / inject_Z b <-> (0 < a)%Z)
  /\ (inject_Z a / inject_Z b < 0 <-> (a < 0)%Z)
  /\ (inject_Z a / inject_Z b == 0 <-> a = 0%Z).
Proof.
  intros Hb.
  assert (HB : 0 < inject_Z b) by (change 0 with (inject_Z 0); now rewrite <- Zlt_Qlt).
  assert (Hq : inject_Z a / inject_Z b * inject_Z b == inject_Z a)
    by (field; lra).
  set (q := inject_Z a / inject_Z b) in *.
  rewrite (Zlt_Qlt 0 a), (Zlt_Qlt a 0).
  change (inject_Z 0) with 0.
  assert (Hz : a = 0%Z <-> inject_Z a == 0).
  { change 0 with (inject_Z 0). rewrite inject_Z_injective. reflexivity. }
  rewrite Hz.
  repeat split; intros; nra.
Qed.

(** X7.  On a frame at least two pixels wide and high with a face on it,
    the returned gaze tells on which side of the frame's centre the
    centre of the followed face lies: positive to the right (below),
    negative to the left (above), zero exactly when the two centres
    share the coordinate. *)
Theorem gaze_points_to_the_face self frame_height frame_width f fs x y w h :
  cap self = true ->
  (2 <= frame_width)%Z ->
  (2 <= frame_height)%Z ->
  py_max_by area f fs = (x, y, w, h) ->
  exists gx gy,
    fst (get_face_position self (Frame frame_height frame_width (f :: fs)))
    = Some (gx, gy)
    /\ ((0 < gx <-> (frame_width / 2 < x + w / 2)%Z)
        /\ (gx < 0 <-> (x + w / 2 < frame_width / 2)%Z)
        /\ (gx == 0 <-> (x + w / 2 = frame_width / 2)%Z))
    /\ ((0 < gy <-> (frame_height / 2 < y + h / 2)%Z)
        /\ (gy < 0 <-> (y + h / 2 < frame_height / 2)%Z)
        /\ (gy == 0 <-> (y + h / 2 = frame_height / 2)%Z)).
Proof.
  intros Hcap Hw Hh Hbest.
  assert (Hw2 : (0 < frame_width / 2)%Z) by (apply Z.div_str_pos; lia).
  assert (Hh2 : (0 < frame_height / 2)%Z) by (apply Z.div_str_pos; lia).
  unfold get_face_position. rewrite Hcap, Hbest. cbn [negb].
  unfold py_truediv.
  destruct (Z.eqb_spec (frame_width / 2) 0) as [E | _]; [ lia | ].
  destruct (Z.eqb_spec (frame_height / 2) 0) as [E | _]; [ lia | ].
  cbn [fst]. eexists _, _. split; [ reflexivity | ].
  split.
  - destruct (clamp_sign (inject_Z (x + w / 2 - frame_width / 2)
                          / inject_Z (frame_width / 2))) as (C1 & C2 & C3).
    destruct (quotient_sign (x + w / 2 - frame_width / 2) (frame_width / 2) Hw2)
      as (Q1 & Q2 & Q3).
    rewrite C1, C2, C3, Q1, Q2, Q3. repeat split; intros; lia.
  - destruct (clamp_sign (inject_Z (y + h / 2 - frame_height / 2)
                          / inject_Z (frame_height / 2))) as (C1 & C2 & C3).
    destruct (quotient_sign (y + h / 2 - frame_height / 2) (frame_height / 2) Hh2)
      as (Q1 & Q2 & Q3).
    rewrite C1, C2, C3, Q1, Q2, Q3. repeat split; intros; lia.
Qed.

Lemma gaze_points_to_the_face_witness :
  exists gx gy,
    fst (get_face_position (init true)
           (Frame 480 640 [(100, 100, 50, 50); (300, 200, 80, 80)]%Z))
    = Some (gx, gy)
    /\ ((0 < gx <-> (640 / 2 < 300 + 80 / 2)%Z)
        /\ (gx < 0 <-> (300 + 80 / 2 < 640 / 2)%Z)
        /\ (gx == 0 <-> (300 + 80 / 2 = 640 / 2)%Z))
    /\ ((0 < gy <-> (480 / 2 < 200 + 80 / 2)%Z)
        /\ (gy < 0 <-> (200 + 80 / 2 < 480 / 2)%Z)
        /\ (gy == 0 <-> (200 + 80 / 2 = 480 / 2)%Z)).
Proof.
  apply (gaze_points_to_the_face (init true) 480 640
           (100, 100, 50, 50)%Z [(300, 200, 80, 80)%Z] 300 200 80 80).
  - reflexivity.
  - lia.
  - lia.
  - reflexivity.
Defined.

Lemma Qpow_antitone q n k :
  0 < q -> q <= 1 -> (n <= k)%nat -> Qpow q k <= Qpow q n.
Proof.
  intros Hq Hq1 Hle. induction Hle as [ | k Hle IH]; [ apply Qle_refl | ].
  cbn [Qpow]. pose proof (Qpow_pos q k Hq). nra.
Qed.

(** X8.  Ninety polls without a face bring the eyes back to the centre:
    from any stored value with both components in [[-1, 1]], after 90 or
    more polls that each capture a frame without a face the stored value
    is exactly [(0, 0)]. *)
Theorem gaze_recentres_within_90_polls x0 y0 cs :
  in_range (x0, y0) ->
  forallb no_face cs = true ->
  (90 <= List.length cs)%nat ->
  last_face_position (poll_all (Build true (Some (x0, y0))) cs) = Some (0, 0).
Proof.
  intros [[Hx1 Hx2] [Hy1 Hy2]] Hall Hlen. cbn [fst snd] in *.
  destruct (decay_run cs x0 y0 Hall) as (p & Hp & _ & Hsmall).
  rewrite Hp. f_equal. apply Hsmall.
  - set (k := List.length cs) in *.
    assert (H90 : Qpow 0.95 90 < 0.01) by (vm_compute; reflexivity).
    assert (Hk : Qpow 0.95 k <= Qpow 0.95 90)
      by (apply Qpow_antitone; [ reflexivity | discriminate | exact Hlen ]).
    assert (Hk0 : 0 < Qpow 0.95 k) by (apply Qpow_pos; reflexivity).
    rewrite !Qabs_scale by lra.
    assert (Ax : Qabs x0 <= 1) by (apply Qabs_Qle_condition; split; assumption).
    assert (Ay : Qabs y0 <= 1) by (apply Qabs_Qle_condition; split; assumption).
    pose proof (Qabs_nonneg x0). pose proof (Qabs_nonneg y0).
    split; nra.
  - intros ->. cbn in Hlen. lia.
Qed.

Lemma gaze_recentres_within_90_polls_witness :
  last_face_position
    (poll_all (Build true (Some (1, -1))) (List.repeat (Frame 480 640 []) 90))
  = Some (0, 0).
Proof.
  apply (gaze_recentres_within_90_polls 1 (-1) (List.repeat (Frame 480 640 []) 90)).
  - repeat split; discriminate.
  - reflexivity.
  - rewrite List.repeat_length. apply le_n.
Defined.

(** Ninety is needed: after 89 polls the value that started at the
    frame's edge is still off the centre. *)
Example gaze_not_yet_centred_after_89_polls :
  last_face_position
    (poll_all (Build true (Some (1, 0))) (List.repeat (Frame 480 640 []) 89))
  <> Some (0, 0).
Proof. vm_compute. discriminate. Qed.

End FaceTrackingMore.

(* ================================================================== *)
(** * Further properties of the animated face *)
(* ================================================================== *)

Section AnimationMore.

Import DeskbotGUI.
Open Scope Q_scope.

Lemma animate_eyes self :
  left_eye_x (animate self)
  = left_eye_x self + (target_eye_x self - left_eye_x self) * 0.15
  /\ left_eye_y (animate self)
     = left_eye_y self + (target_eye_y self - left_eye_y self) * 0.15
  /\ right_eye_x (animate self)
     = right_eye_x self + (target_eye_x self - right_eye_x self) * 0.15
  /\ right_eye_y (animate self)
     = right_eye_y self + (target_eye_y self - right_eye_y self) * 0.15
  /\ target_eye_x (animate self) = target_eye_x self
  /\ target_eye_y (animate self) = target_eye_y self
  /\ expression (animate self) = expression self.
Proof.
  unfold animate. destruct (if (150 <? _)%Z then _ else _). cbn. repeat split.
Qed.

(** A tick moves each offset to a point between itself and its target. *)
Lemma animate_within bound self :
  eyes_within bound self -> eyes_within bound (animate self).
Proof.
  unfold eyes_within, within.
  destruct (animate_eyes self) as (-> & -> & -> & -> & -> & -> & _).
  intros ((? & ?) & (? & ?) & (? & ?)). repeat split; lra.
Qed.

Lemma call_method_within self c :
  position_in_range c -> eyes_within 15 self -> eyes_within 15 (call_method self c).
Proof.
  destruct c as [ | [[x y] | ] | e]; cbn [call_method position_in_range].
  - intros _. apply animate_within.
  - unfold eyes_within, within, update_eye_position. cbn.
    intros ((? & ?) & (? & ?)) ((? & ?) & (? & ?) & _). repeat split; lra.
  - intros _ H. exact H.
  - intros _ H. exact H.
Qed.

(** X9.  Under any sequence of ticks, expression changes and gaze updates
    with positions in [[-1, 1]], eye offsets and targets that are within
    15 pixels stay within 15 pixels. *)
Theorem eyes_stay_within_15_pixels self cs :
  eyes_within 15 self ->
  List.Forall position_in_range cs ->
  eyes_within 15 (call_methods self cs).
Proof.
  intros Hself Hcs. revert self Hself.
  induction Hcs as [ | c cs Hc _ IH]; intros self Hself; [ exact Hself | ].
  cbn [call_methods]. apply IH. now apply call_method_within.
Qed.

Lemma eyes_stay_within_15_pixels_witness :
  eyes_within 15
    (call_methods initial
       [UpdateEyePosition (Some (1, -0.5)); Animate; SetExpression "happy";
        Animate; UpdateEyePosition None; Animate]).
Proof.
  apply eyes_stay_within_15_pixels.
  - unfold eyes_within, within. cbn. repeat split; discriminate.
  - repeat constructor; cbn; discriminate.
Defined.

(** X10.  The two eyes move in parallel: from the fields [__init__] sets,
    whatever ticks, gaze updates and expression changes follow, the left
    and the right offset are the same. *)
Theorem eyes_move_in_parallel cs :
  left_eye_x (call_methods initial cs) = right_eye_x (call_methods initial cs)
  /\ left_eye_y (call_methods initial cs) = right_eye_y (call_methods initial cs).
Proof.
  assert (H : forall cs self,
             left_eye_x self = right_eye_x self /\ left_eye_y self = right_eye_y self ->
             left_eye_x (call_methods self cs) = right_eye_x (call_methods self cs)
             /\ left_eye_y (call_methods self cs) = right_eye_y (call_methods self cs)).
  { clear cs. induction cs as [ | c cs IH]; intros self [Hx Hy]; [ now split | ].
    cbn [call_methods]. apply IH.
    destruct c as [ | [[x y] | ] | e]; cbn [call_method].
    - destruct (animate_eyes self) as (-> & -> & -> & -> & _).
      now rewrite Hx, Hy.
    - now cbn.
    - now cbn.
    - now cbn. }
  apply H. now split.
Qed.

(** X11.  With offsets within 15 pixels everything [draw_face] creates
    lies on the 400 x 250 canvas, and while the eyes are open the box of
    each pupil lies in the box of its eye. *)
Theorem face_is_drawn_inside_the_canvas self :
  eyes_within 15 self ->
  List.Forall (fun item => box_inside (corners item) canvas_box) (draw_face self)
  /\ (is_blinking self = false ->
      exists left_eye right_eye left_pupil right_pupil mouth,
        draw_face self = [left_eye; right_eye; left_pupil; right_pupil; mouth]
        /\ box_inside (corners left_pupil) (corners left_eye)
        /\ box_inside (corners right_pupil) (corners right_eye)).
Proof.
  unfold eyes_within, within. intros ((? & ?) & (? & ?) & _).
  unfold draw_face. split.
  - destruct (is_blinking self); cbn [negb];
      destruct (String.eqb (expression self) "happy");
      try destruct (String.eqb (expression self) "talking");
      cbn [List.app];
      repeat first [ apply List.Forall_nil | apply List.Forall_cons ];
      cbn; unfold inject_Z; repeat split; lra.
  - intros ->. cbn [negb].
    destruct (String.eqb (expression self) "happy");
      try destruct (String.eqb (expression self) "talking");
      cbn [List.app]; do 5 eexists; (split; [ reflexivity | ]);
      split; cbn; unfold inject_Z; repeat split; lra.
Qed.

Lemma face_is_drawn_inside_the_canvas_witness :
  let self := call_methods initial [UpdateEyePosition (Some (1, -1)); Animate; Animate] in
  List.Forall (fun item => box_inside (corners item) canvas_box) (draw_face self)
  /\ (is_blinking self = false ->
      exists left_eye right_eye left_pupil right_pupil mouth,
        draw_face self = [left_eye; right_eye; left_pupil; right_pupil; mouth]
        /\ box_inside (corners left_pupil) (corners left_eye)
        /\ box_inside (corners right_pupil) (corners right_eye)).
Proof.
  apply face_is_drawn_inside_the_canvas.
  unfold eyes_within, within. cbn. repeat split; discriminate.
Defined.

End AnimationMore.

(* ================================================================== *)
(** * Further properties of the wake-word test *)
(* ================================================================== *)

Section WakeWordMore.

Import VoiceRecognition.

Lemma split_all_space s : all_space s = true -> split_from EmptyString s = [].
Proof.
  induction s as [ | c s IH]; [ reflexivity | ].
  cbn. intros H. apply andb_prop in H as [Hc Hs]. rewrite Hc. now apply IH.
Qed.

Lemma lower_empty t : lower t = EmptyString <-> t = EmptyString.
Proof. destruct t; cbn; split; congruence. Qed.

Lemma append_assoc a b c : append (append a b) c = append a (append b c).
Proof. induction a as [ | x a IH]; cbn; [ reflexivity | now rewrite IH ]. Qed.

(** X12.  A wake word that is empty or made of white space alone accepts
    every non-empty text. *)
Theorem blank_wake_word_accepts_everything self text :
  all_space (wake_word self) = true ->
  text <> EmptyString ->
  check_wake_word self (Some text) = true.
Proof.
  intros Hw Ht. unfold check_wake_word.
  destruct text as [ | c text]; [ now elim Ht | ].
  unfold split. rewrite (split_all_space _ Hw). reflexivity.
Qed.

Lemma blank_wake_word_accepts_everything_witness :
  check_wake_word (init (Some "  ")) (Some "good morning") = true.
Proof.
  apply blank_wake_word_accepts_everything; [ reflexivity | discriminate ].
Defined.

(** X13.  Upper and lower case play no part, neither in the configured
    wake word nor in the text: two wake words and two texts that
    lower-case to the same strings get the same answer. *)
Theorem wake_word_test_ignores_case w1 w2 t1 t2 :
  lower w1 = lower w2 ->
  lower t1 = lower t2 ->
  check_wake_word (init (Some w1)) (Some t1)
  = check_wake_word (init (Some w2)) (Some t2).
Proof.
  intros Hw Ht. unfold check_wake_word, init. cbn [wake_word]. rewrite Hw.
  destruct t1 as [ | c1 t1], t2 as [ | c2 t2]; try reflexivity; try discriminate.
  now rewrite Ht.
Qed.

Lemma wake_word_test_ignores_case_witness :
  check_wake_word (init (Some "Hey Deskbot")) (Some "HEY DESKBOT, hello")
  = check_wake_word (init (Some "HEY deskbot")) (Some "hey deskbot, HELLO").
Proof.
  apply wake_word_test_ignores_case; reflexivity.
Defined.

(** X14.  The test knows no word boundaries: a text is accepted as soon
    as its lower-cased form contains, anywhere, the lower-cased form of a
    text that is accepted, also in the middle of longer words. *)
Theorem text_containing_an_accepted_text_is_accepted self accepted text :
  check_wake_word self (Some accepted) = true ->
  contains (lower text) (lower accepted) ->
  check_wake_word self (Some text) = true.
Proof.
  rewrite !check_wake_word_iff.
  intros (t & Ht & Hne & pre & post & Hc) (before & after & Hin).
  injection Ht as <-.
  exists text. split; [ reflexivity | ]. split.
  - intros ->. cbn in Hin.
    destruct before; [ | discriminate ].
    destruct accepted; [ now elim Hne | discriminate ].
  - exists (append before pre), (append post after).
    rewrite Hin, Hc, !append_assoc. reflexivity.
Qed.

Lemma text_containing_an_accepted_text_is_accepted_witness :
  check_wake_word (init None) (Some "They Deskbots") = true.
Proof.
  apply (text_containing_an_accepted_text_is_accepted (init None)
           "Hey Deskbot" "They Deskbots").
  - reflexivity.
  - now exists "t", "s".
Defined.

End WakeWordMore.

(* ================================================================== *)
(** * Properties of the speech output *)
(* ================================================================== *)

Section TextToSpeechFacts.

Import TextToSpeech.

(** X15.  When the speech driver starts, the engine is set to rate 150
    and volume 0.9, and the voice chosen is that of the first listed
    voice whose lower-cased name contains "female" or "zira" and whose
    selection does not raise; when no voice is like that the driver's
    own voice is left in place. *)
Theorem first_friendly_voice_is_selected set_voice_raises voices :
  exists selected,
    engine (init (Some voices) set_voice_raises) = Some (Engine 150 0.9 selected)
    /\ match selected with
       | Some id =>
           exists before v after,
             voices = before ++ v :: after
             /\ voice_id v = id
             /\ qualifies set_voice_raises v = true
             /\ List.forallb (fun u => negb (qualifies set_voice_raises u)) before = true
       | None =>
           List.forallb (fun u => negb (qualifies set_voice_raises u)) voices = true
       end.
Proof.
  exists (select_voice set_voice_raises voices). split; [ reflexivity | ].
  induction voices as [ | v voices IH]; [ reflexivity | ].
  cbn [select_voice].
  assert (Hskip :
    qualifies set_voice_raises v = false ->
    match select_voice set_voice_raises voices with
    | Some id =>
        exists before v0 after,
          v :: voices = before ++ v0 :: after
          /\ voice_id v0 = id
          /\ qualifies set_voice_raises v0 = true
          /\ List.forallb (fun u => negb (qualifies set_voice_raises u)) before = true
    | None =>
        List.forallb (fun u => negb (qualifies set_voice_raises u)) (v :: voices) = true
    end).
  { intros Hq. destruct (select_voice set_voice_raises voices) as [id | ].
    - destruct IH as (before & v0 & after & Hv & Hid & Hq0 & Hb).
      exists (v :: before), v0, after. cbn. rewrite Hq, Hb, Hv. now repeat split.
    - cbn. now rewrite Hq, IH. }
  unfold qualifies in Hskip at 1.
  destruct (voice_name v) as [ | | s] eqn:Hn.
  - apply Hskip. reflexivity.
  - now apply Hskip.
  - destruct (VoiceRecognition.py_in "female" (VoiceRecognition.lower s)
              || VoiceRecognition.py_in "zira" (VoiceRecognition.lower s)) eqn:Hm;
      [ | now apply Hskip ].
    destruct (set_voice_raises (voice_id v)) eqn:Hr; [ now apply Hskip | ].
    exists [], v, voices. unfold qualifies. rewrite Hn, Hm, Hr. now repeat split.
Qed.

End TextToSpeechFacts.

(* ================================================================== *)
(** * Properties of the running application *)
(* ================================================================== *)

Section DeskbotFacts.

Import Deskbot.

(** What holds at the start and is kept by every event that may occur
    holds throughout. *)
Lemma run_invariant (P : session -> Prop) (may_occur : event -> bool) :
  (forall s e, may_occur e = true -> P s -> P (step s e)) ->
  forall es s, List.forallb may_occur es = true -> P s -> P (run s es).
Proof.
  intros Hstep. induction es as [ | e es IH]; intros s Hes Hs; [ exact Hs | ].
  cbn in Hes. apply andb_prop in Hes as [He Hes].
  cbn [run]. apply IH; [ exact Hes | now apply Hstep ].
Qed.

Lemma forallb_always {A} (l : list A) : List.forallb (fun _ => true) l = true.
Proof. induction l; [ reflexivity | assumption ]. Qed.

Ltac open_step :=
  unfold step, on_toggle_listening, toggle_listening, gui_set_expression,
    face_tracking_loop_pass, voice_loop_listen, voice_loop_speak,
    set_gui, set_listening, set_openai_integration, set_face_tracking.

Ltac split_cases :=
  repeat match goal with
         | |- context [if ?b then _ else _] => destruct b eqn:?
         | |- context [match ?x with _ => _ end] => destruct x eqn:?
         end.

Ltac finish :=
  cbn; rewrite ?List.app_nil_r; repeat split;
  first [ assumption | reflexivity | congruence ].

(** The voice thread stays idle while voice is switched off. *)
Lemma step_keeps_voice_off s e :
  (voice_enabled (app s) = false /\ speaking s = None
   /\ requests s = [] /\ spoken s = []) ->
  (voice_enabled (app (step s e)) = false /\ speaking (step s e) = None
   /\ requests (step s e) = [] /\ spoken (step s e) = []).
Proof.
  intros (Hv & Hs & Hr & Hp). destruct e as [ | | c | h create].
  - open_step. cbn. split_cases; finish.
  - open_step. finish.
  - open_step. cbn. split_cases; finish.
  - open_step. cbn. rewrite Hs, Hv. finish.
Qed.

(** Without a click the application never starts to listen. *)
Lemma step_keeps_not_listening s e :
  negb (is_click e) = true ->
  (listening (app s) = false /\ speaking s = None
   /\ requests s = [] /\ spoken s = []) ->
  (listening (app (step s e)) = false /\ speaking (step s e) = None
   /\ requests (step s e) = [] /\ spoken (step s e) = []).
Proof.
  intros Hc (Hl & Hs & Hr & Hp). destruct e as [ | | c | h create];
    [ discriminate | | | ].
  - open_step. finish.
  - open_step. cbn. split_cases; finish.
  - open_step. cbn. rewrite Hs, Hl, andb_false_r. finish.
Qed.

(** X16.  Nothing goes out before the listen button is clicked, and
    nothing at all while [VOICE_ENABLED] switches voice off: whatever the
    microphone hears and whatever else happens, no request is sent to the
    backend and nothing is handed to the speech engine. *)
Theorem silent_until_listening env es :
  feature_enabled (VOICE_ENABLED env) = false
  \/ List.forallb (fun e => negb (is_click e)) es = true ->
  requests (run (start env) es) = [] /\ spoken (run (start env) es) = [].
Proof.
  intros [Hoff | Hnoclick].
  - destruct (run_invariant
                (fun s => voice_enabled (app s) = false /\ speaking s = None
                          /\ requests s = [] /\ spoken s = [])
                (fun _ => true)
                (fun s e _ => step_keeps_voice_off s e) es (start env)
                (forallb_always es))
      as (_ & _ & Hr & Hp); [ | now split ].
    cbn. repeat split; assumption.
  - destruct (run_invariant
                (fun s => listening (app s) = false /\ speaking s = None
                          /\ requests s = [] /\ spoken s = [])
                (fun e => negb (is_click e))
                step_keeps_not_listening es (start env) Hnoclick)
      as (_ & _ & Hr & Hp); [ | now split ].
    cbn. repeat split; reflexivity.
Qed.

Lemma silent_until_listening_witness :
  let env := Environment (Some "sk-test") None (Some "false") None true None
                         (fun _ => false) in
  let es := [Click; VoiceThread (VoiceRecognition.Recognized "hello") (fun _ => Some "Hi!");
             VoiceThread VoiceRecognition.WaitTimeout (fun _ => None); Tick] in
  requests (run (start env) es) = [] /\ spoken (run (start env) es) = [].
Proof.
  cbv zeta. apply silent_until_listening. left. reflexivity.
Defined.

(** Without a client the voice thread can only pick up the apology. *)
Lemma step_keeps_apology s e :
  (openai_integration (app s) = OpenAIIntegration.init None
   /\ requests s = []
   /\ (speaking s = None \/ speaking s = Some OpenAIIntegration.not_configured_reply)
   /\ List.Forall (fun said => said = OpenAIIntegration.not_configured_reply) (spoken s)) ->
  (openai_integration (app (step s e)) = OpenAIIntegration.init None
   /\ requests (step s e) = []
   /\ (speaking (step s e) = None
       \/ speaking (step s e) = Some OpenAIIntegration.not_configured_reply)
   /\ List.Forall (fun said => said = OpenAIIntegration.not_configured_reply)
                  (spoken (step s e))).
Proof.
  intros (Ho & Hr & Hs & Hp). destruct e as [ | | c | h create].
  - open_step. cbn. split_cases; cbn; repeat split; assumption.
  - open_step. cbn. repeat split; assumption.
  - open_step. cbn. split_cases; cbn; repeat split; assumption.
  - unfold step. destruct Hs as [Hs | Hs]; rewrite Hs.
    + unfold voice_loop_listen.
      destruct (voice_enabled (app s) && listening (app s));
        [ | cbn; rewrite ?List.app_nil_r; repeat split; auto ].
      destruct (VoiceRecognition.listen h) as [[ | ch text] | ];
        [ cbn; rewrite ?List.app_nil_r; repeat split; auto
        |
        | cbn; rewrite ?List.app_nil_r; repeat split; auto ].
      cbn. rewrite Ho. open_step. cbn. rewrite ?List.app_nil_r.
      repeat split; auto.
    + unfold voice_loop_speak, TextToSpeech.speak.
      destruct (TextToSpeech.engine (tts (app s))); open_step; cbn;
        rewrite ?List.app_nil_r; repeat split; auto.
      apply List.Forall_app. split; [ assumption | ].
      now constructor.
Qed.

(** X17.  Without a usable [OPENAI_API_KEY] (unset or empty) the
    application never contacts the backend: whatever is heard and
    clicked, no request goes out, the conversation history stays the
    system message alone, and all the speech engine is ever given is the
    not-configured apology. *)
Theorem without_api_key_only_the_apology_is_spoken env es :
  OPENAI_API_KEY env = None \/ OPENAI_API_KEY env = Some EmptyString ->
  requests (run (start env) es) = []
  /\ List.Forall (fun said => said = OpenAIIntegration.not_configured_reply)
                 (spoken (run (start env) es))
  /\ OpenAIIntegration.conversation_history
       (openai_integration (app (run (start env) es)))
     = [OpenAIIntegration.system_message].
Proof.
  intros Hkey.
  destruct (run_invariant
              (fun s =>
                 openai_integration (app s) = OpenAIIntegration.init None
                 /\ requests s = []
                 /\ (speaking s = None
                     \/ speaking s = Some OpenAIIntegration.not_configured_reply)
                 /\ List.Forall
                      (fun said => said = OpenAIIntegration.not_configured_reply)
                      (spoken s))
              (fun _ => true)
              (fun s e _ => step_keeps_apology s e) es (start env)
              (forallb_always es))
    as (Ho & Hr & _ & Hp).
  - cbn. repeat split; auto. destruct Hkey as [-> | ->]; reflexivity.
  - repeat split; [ exact Hr | exact Hp | now rewrite Ho ].
Qed.

Lemma without_api_key_only_the_apology_is_spoken_witness :
  let env := Environment None None None None true (Some []) (fun _ => false) in
  let es := [Click;
             VoiceThread (VoiceRecognition.Recognized "hello") (fun _ => Some "Hi!");
             VoiceThread VoiceRecognition.WaitTimeout (fun _ => None)] in
  spoken (run (start env) es) = [OpenAIIntegration.not_configured_reply]
  /\ requests (run (start env) es) = []
  /\ List.Forall (fun said => said = OpenAIIntegration.not_configured_reply)
                 (spoken (run (start env) es))
  /\ OpenAIIntegration.conversation_history
       (openai_integration (app (run (start env) es)))
     = [OpenAIIntegration.system_message].
Proof.
  cbv zeta. split; [ reflexivity | ].
  apply without_api_key_only_the_apology_is_spoken. left. reflexivity.
Defined.

(** What the two background threads leave alone. *)
Lemma face_tracking_loop_pass_frame a c :
  let a' := face_tracking_loop_pass a c in
  listening a' = listening a
  /\ DeskbotGUI.toggle_listening_callback (gui a')
     = DeskbotGUI.toggle_listening_callback (gui a)
  /\ DeskbotGUI.listen_button (gui a') = DeskbotGUI.listen_button (gui a)
  /\ DeskbotGUI.expression (DeskbotGUI.face (gui a'))
     = DeskbotGUI.expression (DeskbotGUI.face (gui a)).
Proof.
  cbv zeta. unfold face_tracking_loop_pass.
  destruct (face_tracking_enabled a); [ | repeat split ].
  destruct (FaceTracking.get_face_position _ _) as [[[x y] | ] tracker];
    cbn; repeat split.
Qed.

Lemma voice_loop_listen_frame a h create :
  let a' := fst (fst (voice_loop_listen a h create)) in
  listening a' = listening a
  /\ DeskbotGUI.toggle_listening_callback (gui a')
     = DeskbotGUI.toggle_listening_callback (gui a)
  /\ DeskbotGUI.listen_button (gui a') = DeskbotGUI.listen_button (gui a).
Proof.
  cbv zeta. unfold voice_loop_listen.
  destruct (voice_enabled a && listening a); [ | repeat split ].
  destruct (VoiceRecognition.listen h) as [[ | ch text] | ];
    [ repeat split | | repeat split ].
  cbv zeta.
  destruct (OpenAIIntegration.get_response _ _ _) as [[response openai] sent].
  cbn. repeat split.
Qed.

(** The button text follows the listening flag. *)
Lemma step_keeps_button_text s e :
  (DeskbotGUI.toggle_listening_callback (gui (app s)) = true
   /\ DeskbotGUI.listen_button (gui (app s))
      = if listening (app s) then "Stop Listening" else "Start Listening") ->
  (DeskbotGUI.toggle_listening_callback (gui (app (step s e))) = true
   /\ DeskbotGUI.listen_button (gui (app (step s e)))
      = if listening (app (step s e)) then "Stop Listening" else "Start Listening").
Proof.
  intros (Hc & Hb). destruct e as [ | | c | h create].
  - unfold step, on_toggle_listening. cbn [app]. rewrite Hc.
    unfold toggle_listening, gui_set_expression, set_gui, set_listening.
    cbn. destruct (listening (app s)); cbn; rewrite Hb; cbn;
      (split; [ assumption | reflexivity ]).
  - open_step. cbn. split; assumption.
  - unfold step. cbn [app].
    destruct (face_tracking_loop_pass_frame (app s) c) as (-> & -> & -> & _).
    split; assumption.
  - unfold step. destruct (speaking s) as [response | ].
    + unfold voice_loop_speak. open_step. cbn. split; assumption.
    + pose proof (voice_loop_listen_frame (app s) h create) as F. cbv zeta in F.
      destruct (voice_loop_listen (app s) h create) as [[a' sent] response].
      cbn [fst app] in *. destruct F as (-> & -> & ->). split; assumption.
Qed.

(** X18.  Once [run] has wired the callback, the listen button always
    says what a click will do: "Stop Listening" while the application
    listens and "Start Listening" while it does not, whatever has
    happened in between. *)
Theorem listen_button_shows_the_listening_state env es :
  let a := app (run (start env) es) in
  DeskbotGUI.listen_button (gui a)
  = if listening a then "Stop Listening" else "Start Listening".
Proof.
  cbv zeta.
  apply (run_invariant
           (fun s =>
              DeskbotGUI.toggle_listening_callback (gui (app s)) = true
              /\ DeskbotGUI.listen_button (gui (app s))
                 = if listening (app s) then "Stop Listening" else "Start Listening")
           (fun _ => true)
           (fun s e _ => step_keeps_button_text s e) es (start env)
           (forallb_always es)).
  now split.
Qed.

(** The expression is only ever set to one of three strings. *)
Lemma step_keeps_known_expression s e :
  (let x := DeskbotGUI.expression (DeskbotGUI.face (gui (app s))) in
   x = "normal" \/ x = "happy" \/ x = "talking") ->
  (let x := DeskbotGUI.expression (DeskbotGUI.face (gui (app (step s e)))) in
   x = "normal" \/ x = "happy" \/ x = "talking").
Proof.
  cbv zeta. intros H. destruct e as [ | | c | h create].
  - open_step. cbn [app].
    destruct (DeskbotGUI.toggle_listening_callback (gui (app s))); [ | exact H ].
    cbn. destruct (listening (app s)); cbn;
      destruct (VoiceRecognition.py_in _ _); cbn; auto.
  - open_step. cbn [app gui DeskbotGUI.face DeskbotGUI.set_face].
    destruct (animate_eyes (DeskbotGUI.face (gui (app s))))
      as (_ & _ & _ & _ & _ & _ & ->). exact H.
  - unfold step. cbn [app].
    destruct (face_tracking_loop_pass_frame (app s) c) as (_ & _ & _ & ->).
    exact H.
  - unfold step. destruct (speaking s) as [response | ].
    + unfold voice_loop_speak. open_step. cbn. auto.
    + unfold voice_loop_listen.
      destruct (voice_enabled (app s) && listening (app s)); [ | exact H ].
      destruct (VoiceRecognition.listen h) as [[ | ch text] | ]; try exact H.
      cbv zeta.
      destruct (OpenAIIntegration.get_response _ _ _) as [[response openai] sent].
      open_step. cbn. auto.
Qed.

(** X19.  The expression of the face is always one of "normal", "happy"
    and "talking", so the drawing code never meets a string it does not
    know. *)
Theorem expression_is_always_known env es :
  let x := DeskbotGUI.expression
             (DeskbotGUI.face (gui (app (run (start env) es)))) in
  x = "normal" \/ x = "happy" \/ x = "talking".
Proof.
  apply (run_invariant
           (fun s =>
              let x := DeskbotGUI.expression (DeskbotGUI.face (gui (app s))) in
              x = "normal" \/ x = "happy" \/ x = "talking")
           (fun _ => true)
           (fun s e _ => step_keeps_known_expression s e) es (start env)
           (forallb_always es)).
  cbv zeta. left. reflexivity.
Qed.

(** The gaze the face thread passes on is always in range, so the eyes
    stay within their 15 pixels. *)
Lemma step_keeps_eyes_within s e :
  (DeskbotGUI.eyes_within 15 (DeskbotGUI.face (gui (app s)))
   /\ FaceTracking.stored_in_range
        (FaceTracking.last_face_position (face_tracking (app s)))) ->
  (DeskbotGUI.eyes_within 15 (DeskbotGUI.face (gui (app (step s e))))
   /\ FaceTracking.stored_in_range
        (FaceTracking.last_face_position (face_tracking (app (step s e))))).
Proof.
  intros (He & Hf). destruct e as [ | | c | h create].
  - open_step. cbn [app].
    destruct (DeskbotGUI.toggle_listening_callback (gui (app s)));
      [ | now split ].
    cbn. destruct (listening (app s)); cbn;
      destruct (VoiceRecognition.py_in _ _); cbn; split; assumption.
  - open_step. cbn. split; [ now apply animate_within | assumption ].
  - unfold step, face_tracking_loop_pass. cbn [app].
    destruct (face_tracking_enabled (app s)); [ | now split ].
    destruct (get_face_position_in_range (face_tracking (app s)) c Hf)
      as [Hret Hst].
    destruct (FaceTracking.get_face_position (face_tracking (app s)) c)
      as [[[x y] | ] tracker]; cbn in *.
    + split; [ | exact Hst ].
      apply (call_method_within _ (DeskbotGUI.UpdateEyePosition (Some (x, y))));
        assumption.
    + split; assumption.
  - unfold step. destruct (speaking s) as [response | ].
    + unfold voice_loop_speak. open_step. cbn. split; assumption.
    + unfold voice_loop_listen.
      destruct (voice_enabled (app s) && listening (app s)); [ | now split ].
      destruct (VoiceRecognition.listen h) as [[ | ch text] | ];
        [ now split | | now split ].
      cbv zeta.
      destruct (OpenAIIntegration.get_response _ _ _) as [[response openai] sent].
      open_step. cbn. split; assumption.
Qed.

(** X20.  Whatever the camera and the detector deliver and however the
    threads take turns, the eye offsets and their targets never leave the
    range of 15 pixels around the rest position. *)
Theorem eyes_never_leave_their_range env es :
  DeskbotGUI.eyes_within 15 (DeskbotGUI.face (gui (app (run (start env) es)))).
Proof.
  apply (run_invariant
           (fun s =>
              DeskbotGUI.eyes_within 15 (DeskbotGUI.face (gui (app s)))
              /\ FaceTracking.stored_in_range
                   (FaceTracking.last_face_position (face_tracking (app s))))
           (fun _ => true)
           (fun s e _ => step_keeps_eyes_within s e) es (start env)
           (forallb_always es)).
  split; [ | exact I ].
  unfold DeskbotGUI.eyes_within, DeskbotGUI.within. cbn. repeat split; discriminate.
Qed.

Lemma lower_char_t c :
  VoiceRecognition.lower_char c = "t"%char <-> c = "t"%char \/ c = "T"%char.
Proof.
  destruct c as [[] [] [] [] [] [] [] []]; vm_compute;
    (split; [ intros H; first [ discriminate | auto ]
            | intros [H | H]; first [ discriminate | reflexivity ] ]).
Qed.

Lemma lower_char_r c :
  VoiceRecognition.lower_char c = "r"%char <-> c = "r"%char \/ c = "R"%char.
Proof.
  destruct c as [[] [] [] [] [] [] [] []]; vm_compute;
    (split; [ intros H; first [ discriminate | auto ]
            | intros [H | H]; first [ discriminate | reflexivity ] ]).
Qed.

Lemma lower_char_u c :
  VoiceRecognition.lower_char c = "u"%char <-> c = "u"%char \/ c = "U"%char.
Proof.
  destruct c as [[] [] [] [] [] [] [] []]; vm_compute;
    (split; [ intros H; first [ discriminate | auto ]
            | intros [H | H]; first [ discriminate | reflexivity ] ]).
Qed.

Lemma lower_char_e c :
  VoiceRecognition.lower_char c = "e"%char <-> c = "e"%char \/ c = "E"%char.
Proof.
  destruct c as [[] [] [] [] [] [] [] []]; vm_compute;
    (split; [ intros H; first [ discriminate | auto ]
            | intros [H | H]; first [ discriminate | reflexivity ] ]).
Qed.

(** X21.  A feature switch ([VOICE_ENABLED], [FACE_TRACKING_ENABLED]) is
    on when the variable is unset or spells "true" in any mix of upper
    and lower case, and off for every other value ("1", "yes", "on", " true"). *)
Theorem feature_switch_is_on_only_for_true value :
  feature_enabled value = true
  <-> value = None
      \/ exists a b c d,
           value = Some (String a (String b (String c (String d EmptyString))))
           /\ (a = "t" \/ a = "T")%char /\ (b = "r" \/ b = "R")%char
           /\ (c = "u" \/ c = "U")%char /\ (d = "e" \/ d = "E")%char.
Proof.
  unfold feature_enabled. rewrite String.eqb_eq.
  destruct value as [v | ]; [ | split; [ now left | reflexivity ] ].
  split.
  - intros H. right.
    destruct v as [ | a [ | b [ | c [ | d [ | x v]]]]]; try discriminate.
    cbn in H. injection H as Ha Hb Hc Hd.
    exists a, b, c, d. split; [ reflexivity | ].
    now rewrite <- lower_char_t, <- lower_char_r, <- lower_char_u, <- lower_char_e.
  - intros [H | (a & b & c & d & Hv & Ha & Hb & Hc & Hd)]; [ discriminate | ].
    injection Hv as ->. cbn.
    apply lower_char_t in Ha. apply lower_char_r in Hb.
    apply lower_char_u in Hc. apply lower_char_e in Hd.
    now rewrite Ha, Hb, Hc, Hd.
Qed.

Example feature_switch_examples :
  feature_enabled (Some "TRUE") = true /\ feature_enabled (Some "True") = true
  /\ feature_enabled (Some "1") = false /\ feature_enabled (Some "yes") = false
  /\ feature_enabled (Some " true") = false /\ feature_enabled (Some "") = false.
Proof. repeat split. Qed.

End DeskbotFacts.
